(** * The tool-calling loop of [backend/ai_generator.py]

    A shallow embedding of [AIGenerator.generate_response] and its two
    helpers, [_execute_tool_round] and [_extract_text_from_response],
    together with the properties of the orchestration loop.

    The two collaborators of the generator, the Anthropic client and the tool
    manager, are arbitrary: they are transition functions over an abstract
    [World], so they may answer differently at each call, depend on
    everything they were sent before, and raise.  Every call that crosses
    that boundary is logged as an [Event]; the log is what the statements
    about "LLM calls" and "tool executions" count.

    A second part embeds two test utilities of [backend/tests/test_utils.py]:
    the list-backed [MockChromaDBCollection] and
    [TestDataGenerator.large_text_content]. *)

From Stdlib Require Import String List ZArith Lia Bool Arith.
Import ListNotations.
From Stdlib Require DecimalString DecimalNat.

Set Implicit Arguments.

Local Open Scope string_scope.
Local Open Scope list_scope.
Local Open Scope Z_scope.

(* ================================================================== *)
(** ** Python values *)

(** The outcome of evaluating a Python expression that may raise: a value,
    or an [Exception] carrying what [str(e)] prints. *)
Inductive Exc (A : Type) : Type :=
| Ok (value : A)
| Raise (descr : string).
Arguments Ok {A} value.
Arguments Raise {A} descr.

(** The line feed of the f-strings. *)
Definition newline : string := String (Ascii.ascii_of_nat 10) EmptyString.

(** Truth value of an [Optional[List]]: [None] and [[]] are falsy. *)
Definition truthy_list {A : Type} (o : option (list A)) : bool :=
  match o with
  | None => false
  | Some [] => false
  | Some (_ :: _) => true
  end.

(** Truth value of an [Optional[str]]: [None] and the empty string are falsy. *)
Definition truthy_str (o : option string) : bool :=
  match o with
  | None => false
  | Some EmptyString => false
  | Some (String _ _) => true
  end.

(** Truth value of an optional object (an object without [__bool__] or
    [__len__] is truthy). *)
Definition truthy_obj {A : Type} (o : option A) : bool :=
  match o with
  | None => false
  | Some _ => true
  end.

(** Python's [a and b] when [a] is a boolean and [b] an optional object: the
    value is [b] when [a] holds, and falsy otherwise. *)
Definition py_and {A : Type} (a : bool) (b : option A) : option A :=
  if a then b else None.

(* ================================================================== *)
(** ** Data model *)

(** Keyword arguments of a tool call ([content_block.input]). *)
Definition kwargs : Type := list (string * string).

(** A content block of a response, duck-typed as the code reads it:
    [.type] is compared with ["tool_use"], [hasattr(block, "text")] decides
    whether [.text] is read, and [.id], [.name] and [.input] are read on
    tool-use blocks only. *)
Record ContentBlock : Type := mkBlock {
  block_type : string;
  block_text : option string;
  block_id : string;
  block_name : string;
  block_input : kwargs
}.

Definition TextBlock (text : string) : ContentBlock :=
  mkBlock "text" (Some text) "" "" [].

Definition ToolUseBlock (id name : string) (input : kwargs) : ContentBlock :=
  mkBlock "tool_use" None id name input.

(** What iterating over [response.content] gives: the blocks, or the
    exception raised when the attribute cannot be iterated (a response whose
    content is [None], say). *)
Definition Content : Type := Exc (list ContentBlock).

Record Response : Type := mkResponse {
  stop_reason : string;
  content : Content
}.

(** The dictionary [{"type": "tool_result", "tool_use_id": ..., "content": ...}]. *)
Record ToolResult : Type := mkToolResult {
  tool_use_id : string;
  result_content : string
}.

Inductive Role : Type := user | assistant.

(** The three shapes of a message's ["content"]: the query string, the raw
    [response.content], or the list of tool results. *)
Inductive MessageContent : Type :=
| MText (text : string)
| MResponse (raw : Content)
| MResults (tool_results : list ToolResult).

Record Message : Type := mkMessage {
  role : Role;
  msg_content : MessageContent
}.

(** A tool descriptor of the catalog. *)
Record Tool : Type := mkTool {
  tool_name : string;
  tool_description : string;
  tool_input_schema : string
}.

(** [{"type": "auto"}]. *)
Inductive ToolChoice : Type := tool_choice_auto.

(** The keyword arguments of [client.messages.create].  The keys ["tools"]
    and ["tool_choice"] are optional: [None] is the absent key. *)
Record ApiParams : Type := mkApiParams {
  api_model : string;
  api_temperature : Z;
  api_max_tokens : Z;
  api_messages : list Message;
  api_system : string;
  api_tools : option (list Tool);
  api_tool_choice : option ToolChoice
}.

(** What crosses the boundary of the generator: a call, and what came
    back.  A request is logged with the messages as they are when it is
    sent; the Python list it refers to is the one the loop goes on appending
    to. *)
Inductive Event : Type :=
| LLMCall (api_params : ApiParams) (outcome : Exc Response)
| ToolCall (name : string) (input : kwargs) (outcome : Exc string).

Definition is_llm_call (e : Event) : bool :=
  match e with LLMCall _ _ => true | ToolCall _ _ _ => false end.

(** A request that carries the ["tools"] or the ["tool_choice"] key. *)
Definition offers_tools (e : Event) : bool :=
  match e with
  | LLMCall p _ =>
      match api_tools p, api_tool_choice p with
      | None, None => false
      | _, _ => true
      end
  | ToolCall _ _ _ => false
  end.

(** The requests of a log, in the order they were sent. *)
Fixpoint llm_requests (t : list Event) : list ApiParams :=
  match t with
  | [] => []
  | LLMCall p _ :: t' => p :: llm_requests t'
  | ToolCall _ _ _ :: t' => llm_requests t'
  end.

(** The tool executions of a log, in order. *)
Fixpoint tool_calls (t : list Event) : list (string * kwargs) :=
  match t with
  | [] => []
  | LLMCall _ _ :: t' => tool_calls t'
  | ToolCall n i _ :: t' => (n, i) :: tool_calls t'
  end.

Definition count_llm_calls (t : list Event) : nat :=
  List.length (filter is_llm_call t).

Definition count_tool_rounds (t : list Event) : nat :=
  List.length (filter offers_tools t).

(* ================================================================== *)
(** ** Text extraction *)

(** [for content_block in blocks: if hasattr(content_block, "text"): return
    content_block.text], then the sentinel. *)
Fixpoint first_text (blocks : list ContentBlock) : string :=
  match blocks with
  | [] => "No text content in response"
  | b :: rest =>
      match block_text b with
      | Some t => t
      | None => first_text rest
      end
  end.

(** [_extract_text_from_response]: the scan runs inside [try], so an
    exception of the iteration becomes the returned string. *)
Definition _extract_text_from_response (response : Response) : string :=
  match content response with
  | Ok blocks => first_text blocks
  | Raise e => "Error extracting response text: " ++ e
  end%string.

(* ================================================================== *)
(** ** Loop exits *)

(** How the [while] loop is left: by a [return] (or by an exception that
    nothing catches), or because its condition is false.  Both carry the
    values of the two local variables at that point. *)
Inductive LoopExit : Type :=
| Returned (messages : list Message) (rounds_completed : Z) (result : Exc string)
| Exhausted (messages : list Message) (rounds_completed : Z).

(* ================================================================== *)
(** ** Vocabulary of the properties *)

Definition is_tool_use (b : ContentBlock) : bool :=
  (block_type b =? "tool_use")%string.

(** The blocks of a response that a round executes. *)
Definition tool_uses (blocks : list ContentBlock) : list ContentBlock :=
  filter is_tool_use blocks.

(** The result a round files for a block, given what the executor did with
    it: the two [tool_results.append] of the [try] and of the [except]. *)
Definition tool_result_of (b : ContentBlock) (outcome : Exc string) : ToolResult :=
  mkToolResult (block_id b)
    match outcome with
    | Ok tool_result => tool_result
    | Raise e => ("Error executing tool: " ++ e)%string
    end.

(** The log entry of executing a block. *)
Definition tool_event_of (b : ContentBlock) (outcome : Exc string) : Event :=
  ToolCall (block_name b) (block_input b) outcome.

(** The log and the results of a round that executed [uses] with the
    outcomes [os]. *)
Definition round_events (uses : list ContentBlock) (os : list (Exc string))
  : list Event :=
  map (fun bo => tool_event_of (fst bo) (snd bo)) (combine uses os).

Definition round_results (uses : list ContentBlock) (os : list (Exc string))
  : list ToolResult :=
  map (fun bo => tool_result_of (fst bo) (snd bo)) (combine uses os).

Definition role_eqb (r1 r2 : Role) : bool :=
  match r1, r2 with
  | user, user | assistant, assistant => true
  | _, _ => false
  end.

(** No two neighbours of the list have the same role. *)
Fixpoint alternates (messages : list Message) : bool :=
  match messages with
  | m1 :: rest =>
      match rest with
      | m2 :: _ => negb (role_eqb (role m1) (role m2)) && alternates rest
      | [] => true
      end
  | [] => true
  end.

(** An assistant message holding the raw content of a response. *)
Definition is_assistant_message (m : Message) : bool :=
  match role m, msg_content m with
  | assistant, MResponse _ => true
  | _, _ => false
  end.

(** A user message holding at least one tool result. *)
Definition is_tool_results_message (m : Message) : bool :=
  match role m, msg_content m with
  | user, MResults (_ :: _) => true
  | _, _ => false
  end.

(** [n] pairs of an assistant message and a tool-results message. *)
Fixpoint rounds_shape (n : nat) (messages : list Message) : bool :=
  match n, messages with
  | O, [] => true
  | S n', a :: u :: rest =>
      is_assistant_message a && is_tool_results_message u && rounds_shape n' rest
  | _, _ => false
  end.

(** The conversation state after [n] completed rounds. *)
Definition conversation_after (query : string) (n : nat) (messages : list Message)
  : Prop :=
  exists rounds,
    messages = mkMessage user (MText query) :: rounds /\ rounds_shape n rounds = true.

(** How the conversation ends after [n] completed rounds. *)
Definition ends_as_after (query : string) (n : nat) (messages : list Message) : Prop :=
  match n with
  | O => messages = [mkMessage user (MText query)]
  | S _ =>
      exists front r rs,
        messages = front ++ [mkMessage user (MResults (r :: rs))]
  end.

Definition prefix_of {A : Type} (l1 l2 : list A) : Prop :=
  exists rest, l2 = l1 ++ rest.

(** The text of the final request's answer, as [generate_response] returns it. *)
Definition final_text (outcome : Exc Response) : string :=
  match outcome with
  | Ok final_response => _extract_text_from_response final_response
  | Raise e => ("Error generating final response: " ++ e)%string
  end.

(** The messages a loop exit leaves behind. *)
Definition exit_messages (exit : LoopExit) : list Message :=
  match exit with
  | Returned messages _ _ => messages
  | Exhausted messages _ => messages
  end.

(** The log of a run. *)
Definition log_of {W A : Type} (r : W * list Event * A) : list Event := snd (fst r).

(** Exactly one of the catalog and the executor is given. *)
Definition exactly_one_present {A B : Type} (tools : option A) (tool_manager : option B)
  : bool :=
  xorb (match tools with Some _ => true | None => false end) (truthy_obj tool_manager).

(* ================================================================== *)
(** ** The collaborators and the effect monad *)

Section Orchestrator.

Variable World : Type.

(** [client.messages.create], called with the request as keyword arguments. *)
Definition Client : Type := World -> ApiParams -> World * Exc Response.

(** [tool_manager.execute_tool], called with the tool name and the block's
    input as keyword arguments. *)
Definition ToolManager : Type := World -> string -> kwargs -> World * Exc string.

(** The generator object: the class constant, the client and the model
    name from which [base_params] is built. *)
Record AIGenerator : Type := mkAIGenerator {
  SYSTEM_PROMPT : string;
  client : Client;
  model : string
}.

(** A computation over the world that logs its boundary crossings. *)
Definition M (A : Type) : Type := World -> World * list Event * A.

Definition ret {A : Type} (a : A) : M A := fun w => (w, [], a).

Definition bind {A B : Type} (m : M A) (k : A -> M B) : M B :=
  fun w =>
    let '(w1, t1, a) := m w in
    let '(w2, t2, b) := k a w1 in
    (w2, t1 ++ t2, b).

Notation "x <- m ;; k" := (bind m (fun x => k))
  (at level 61, m at next level, right associativity).
Notation "' pat <- m ;; k" := (bind m (fun x => match x with pat => k end))
  (at level 61, pat pattern, m at next level, right associativity).

Definition messages_create (self : AIGenerator) (api_params : ApiParams)
  : M (Exc Response) :=
  fun w => let (w', r) := client self w api_params in (w', [LLMCall api_params r], r).

Definition execute_tool (tool_manager : ToolManager) (name : string) (input : kwargs)
  : M (Exc string) :=
  fun w => let (w', r) := tool_manager w name input in (w', [ToolCall name input r], r).

(* ================================================================ *)
(** ** One tool round *)

(** The body of [for content_block in response.content]: every block
    whose type is ["tool_use"] is executed, and the result or the caught
    exception is appended to [tool_results]. *)
Fixpoint run_tool_blocks (tool_manager : ToolManager) (blocks : list ContentBlock)
  (tool_results : list ToolResult) : M (list ToolResult) :=
  match blocks with
  | [] => ret tool_results
  | content_block :: rest =>
      if (block_type content_block =? "tool_use")%string then
        r <- execute_tool tool_manager (block_name content_block)
               (block_input content_block) ;;
        match r with
        | Ok tool_result =>
            run_tool_blocks tool_manager rest
              (tool_results ++ [mkToolResult (block_id content_block) tool_result])
        | Raise e =>
            run_tool_blocks tool_manager rest
              (tool_results ++ [mkToolResult (block_id content_block)
                                  ("Error executing tool: " ++ e)%string])
        end
      else run_tool_blocks tool_manager rest tool_results
  end.

(** [_execute_tool_round]: the message list is mutated in place, so the
    updated list is returned next to the boolean; the iteration over
    [response.content] is outside any [try], so its exception leaves the
    function, after the assistant message was appended. *)
Definition _execute_tool_round (response : Response) (messages : list Message)
  (tool_manager : ToolManager) : M (list Message * Exc bool) :=
  let messages := messages ++ [mkMessage assistant (MResponse (content response))] in
  match content response with
  | Raise e => ret (messages, Raise e)
  | Ok blocks =>
      tool_results <- run_tool_blocks tool_manager blocks [] ;;
      match tool_results with
      | _ :: _ => ret (messages ++ [mkMessage user (MResults tool_results)], Ok true)
      | [] => ret (messages, Ok false)
      end
  end.


(** The outcomes of executing the tool-use blocks [uses] in order, each
    execution starting in the world the previous one left. *)
Fixpoint tool_outcomes (tm : ToolManager) (uses : list ContentBlock) (w : World)
  : World * list (Exc string) :=
  match uses with
  | [] => (w, [])
  | b :: rest =>
      let (w1, o) := tm w (block_name b) (block_input b) in
      let (w2, os) := tool_outcomes tm rest w1 in
      (w2, o :: os)
  end.

(* ================================================================ *)
(** ** The bounded loop *)

Section Run.

Variable self : AIGenerator.
Variable system_content : string.
Variable tools : option (list Tool).
Variable tool_manager : option ToolManager.
Variable max_rounds : Z.

(** [{**self.base_params, "messages": messages, "system": system_content}]. *)
Definition base_api_params (messages : list Message) : ApiParams :=
  mkApiParams (model self) 0 800 messages system_content None None.

(** The request of a loop iteration: the two tool keys are added under
    [if tools and tool_manager]. *)
Definition loop_api_params (messages : list Message) : ApiParams :=
  if truthy_list tools && truthy_obj tool_manager then
    mkApiParams (model self) 0 800 messages system_content
      tools (Some tool_choice_auto)
  else base_api_params messages.

(** [while rounds_completed < max_rounds: ...].  [fuel] bounds the number
    of iterations; [None] is the answer of a loop that was cut short. *)
Fixpoint while_loop (fuel : nat) (rounds_completed : Z) (messages : list Message)
  : M (option LoopExit) :=
  if rounds_completed <? max_rounds then
    match fuel with
    | O => ret None
    | S fuel' =>
        r <- messages_create self (loop_api_params messages) ;;
        match r with
        | Raise e =>
            ret (Some (Returned messages rounds_completed
                         (Ok ("Error generating response: " ++ e)%string)))
        | Ok response =>
            match py_and (stop_reason response =? "tool_use")%string tool_manager with
            | Some tm =>
                '(messages', tool_executed) <-
                   _execute_tool_round response messages tm ;;
                match tool_executed with
                | Raise e => ret (Some (Returned messages' rounds_completed (Raise e)))
                | Ok false =>
                    ret (Some (Returned messages' rounds_completed
                                 (Ok (_extract_text_from_response response))))
                | Ok true => while_loop fuel' (rounds_completed + 1) messages'
                end
            | None =>
                ret (Some (Returned messages rounds_completed
                             (Ok (_extract_text_from_response response))))
            end
        end
    end
  else ret (Some (Exhausted messages rounds_completed)).

(** What follows the loop: the final request carries no tool keys. *)
Definition after_loop (exit : option LoopExit)
  : M (option (list Message * Exc string)) :=
  match exit with
  | None => ret None
  | Some (Returned messages _ result) => ret (Some (messages, result))
  | Some (Exhausted messages _) =>
      r <- messages_create self (base_api_params messages) ;;
      match r with
      | Ok final_response =>
          ret (Some (messages, Ok (_extract_text_from_response final_response)))
      | Raise e =>
          ret (Some (messages, Ok ("Error generating final response: " ++ e)%string))
      end
  end.

(** The rest of a run from a loop head: the remaining iterations, then what
    follows the loop. *)
Definition run_from (fuel : nat) (rounds_completed : Z) (messages : list Message)
  : M (option (list Message * Exc string)) :=
  exit <- while_loop fuel rounds_completed messages ;;
  after_loop exit.

(** The runs of the loop as a relation: [loop_run rc ms w w' t exit] when
    the loop entered with [rounds_completed = rc] and [messages = ms] in
    world [w] leaves by [exit] in world [w'] after the log [t].  One
    constructor per path through the body. *)
Inductive loop_run : Z -> list Message -> World -> World -> list Event -> LoopExit -> Prop :=
| run_exhausted rc ms w :
    max_rounds <= rc ->
    loop_run rc ms w w [] (Exhausted ms rc)
| run_transport_error rc ms w w1 e :
    rc < max_rounds ->
    client self w (loop_api_params ms) = (w1, Raise e) ->
    loop_run rc ms w w1
      [LLMCall (loop_api_params ms) (Raise e)]
      (Returned ms rc (Ok ("Error generating response: " ++ e)%string))
| run_answer rc ms w w1 response :
    rc < max_rounds ->
    client self w (loop_api_params ms) = (w1, Ok response) ->
    py_and (stop_reason response =? "tool_use")%string tool_manager = None ->
    loop_run rc ms w w1
      [LLMCall (loop_api_params ms) (Ok response)]
      (Returned ms rc (Ok (_extract_text_from_response response)))
| run_content_error rc ms w w1 response tm e :
    rc < max_rounds ->
    client self w (loop_api_params ms) = (w1, Ok response) ->
    py_and (stop_reason response =? "tool_use")%string tool_manager = Some tm ->
    content response = Raise e ->
    loop_run rc ms w w1
      [LLMCall (loop_api_params ms) (Ok response)]
      (Returned (ms ++ [mkMessage assistant (MResponse (content response))]) rc
         (Raise e))
| run_degenerate rc ms w w1 response tm blocks :
    rc < max_rounds ->
    client self w (loop_api_params ms) = (w1, Ok response) ->
    py_and (stop_reason response =? "tool_use")%string tool_manager = Some tm ->
    content response = Ok blocks ->
    tool_uses blocks = [] ->
    loop_run rc ms w w1
      [LLMCall (loop_api_params ms) (Ok response)]
      (Returned (ms ++ [mkMessage assistant (MResponse (content response))]) rc
         (Ok (_extract_text_from_response response)))
| run_round rc ms w w1 response tm blocks w2 os w3 t exit :
    rc < max_rounds ->
    client self w (loop_api_params ms) = (w1, Ok response) ->
    py_and (stop_reason response =? "tool_use")%string tool_manager = Some tm ->
    content response = Ok blocks ->
    tool_uses blocks <> [] ->
    tool_outcomes tm (tool_uses blocks) w1 = (w2, os) ->
    loop_run (rc + 1)
      (ms ++ [mkMessage assistant (MResponse (content response));
              mkMessage user (MResults (round_results (tool_uses blocks) os))])
      w2 w3 t exit ->
    loop_run rc ms w w3
      (LLMCall (loop_api_params ms) (Ok response)
         :: round_events (tool_uses blocks) os ++ t)
      exit.

End Run.

(** [system_content]: the prompt, followed by the history when it is truthy. *)
Definition build_system_content (self : AIGenerator)
  (conversation_history : option string) : string :=
  match conversation_history with
  | Some h =>
      if truthy_str conversation_history then
        (SYSTEM_PROMPT self ++ newline ++ newline ++ "Previous conversation:"
           ++ newline ++ h)%string
      else SYSTEM_PROMPT self
  | None => SYSTEM_PROMPT self
  end.

(** The body of [generate_response] with a loop of at most [fuel]
    iterations.  Next to the returned string (or the exception that leaves
    the function) it gives the final message list, which the Python code
    keeps in a local variable. *)
Definition generate_response_fuel (fuel : nat) (self : AIGenerator)
  (query : string) (conversation_history : option string)
  (tools : option (list Tool)) (tool_manager : option ToolManager)
  (max_rounds : Z) : M (option (list Message * Exc string)) :=
  let system_content := build_system_content self conversation_history in
  let messages := [mkMessage user (MText query)] in
  run_from self system_content tools tool_manager max_rounds fuel 0 messages.

(** [generate_response]: [max_rounds] iterations are all the loop can make. *)
Definition generate_response (self : AIGenerator)
  (query : string) (conversation_history : option string)
  (tools : option (list Tool)) (tool_manager : option ToolManager)
  (max_rounds : Z) : M (option (list Message * Exc string)) :=
  generate_response_fuel (Z.to_nat max_rounds) self query conversation_history
    tools tool_manager max_rounds.

End Orchestrator.

(* ================================================================== *)
(** ** Runs without tools *)

(** A run is "as if neither the catalog nor the executor were given" when it
    is the run given neither, no request of it carries a tool key, and it
    executes no tool. *)
Definition treated_as_no_tools {World : Type} (self : AIGenerator World)
  (query : string) (conversation_history : option string)
  (tools : option (list Tool)) (tool_manager : option (ToolManager World))
  (max_rounds : Z) (w : World) : Prop :=
  generate_response self query conversation_history tools tool_manager max_rounds w
  = generate_response self query conversation_history None None max_rounds w /\
  (forall p,
      In p (llm_requests
              (log_of (generate_response self query conversation_history
                         tools tool_manager max_rounds w))) ->
      api_tools p = None /\ api_tool_choice p = None) /\
  tool_calls
    (log_of (generate_response self query conversation_history
               tools tool_manager max_rounds w)) = [].

(* ================================================================== *)
(** ** Scripted collaborators

    A world in the manner of the test suite's mocks: the client and the tool
    manager each answer from a list of prepared outcomes, and raise once it
    is used up. *)

Module Scenario.

Record Script : Type := mkScript {
  llm_script : list (Exc Response);
  tool_script : list (Exc string)
}.

Definition scripted_client : Client Script :=
  fun w _ =>
    match llm_script w with
    | [] => (w, Raise "")
    | r :: rest => (mkScript rest (tool_script w), r)
    end.

Definition scripted_tool_manager : ToolManager Script :=
  fun w _ _ =>
    match tool_script w with
    | [] => (w, Raise "")
    | r :: rest => (mkScript (llm_script w) rest, r)
    end.

Definition generator : AIGenerator Script :=
  mkAIGenerator "You are an AI assistant" scripted_client "test-model".

Definition sample_tools : list Tool :=
  [ mkTool "search_course_content" "Search course materials" "object";
    mkTool "get_course_outline" "Get course outline" "object" ].

Definition search_block : ContentBlock :=
  ToolUseBlock "tool_1" "search_course_content" [("query", "python basics")].

Definition outline_block : ContentBlock :=
  ToolUseBlock "tool_2" "get_course_outline" [("course_name", "MCP")].

Definition tool_response (blocks : list ContentBlock) : Response :=
  mkResponse "tool_use" (Ok blocks).

Definition text_response (text : string) : Response :=
  mkResponse "end_turn" (Ok [TextBlock text]).

(** The model asks for a tool at every call. *)
Definition always_tools : Script :=
  mkScript
    [ Ok (tool_response [search_block]);
      Ok (tool_response [TextBlock "Let me look at the outline"; outline_block]);
      Ok (text_response "Final answer after max rounds") ]
    [ Ok "Found: Python fundamentals lesson"; Raise "Tool execution failed" ].

(** The transport fails at the second call. *)
Definition second_call_fails : Script :=
  mkScript
    [ Ok (tool_response [search_block]); Raise "API connection failed" ]
    [ Ok "Found: Python fundamentals lesson" ].


Definition query : string := "Find Python basics".

Definition initial_messages : list Message := [mkMessage user (MText query)].

(** A request of the loop when both the catalog and the executor are given. *)
Definition tool_request (messages : list Message) : ApiParams :=
  mkApiParams "test-model" 0 800 messages "You are an AI assistant"
    (Some sample_tools) (Some tool_choice_auto).

(** The final request. *)
Definition plain_request (messages : list Message) : ApiParams :=
  mkApiParams "test-model" 0 800 messages "You are an AI assistant" None None.

(** The conversation after the first and after the second round of
    [always_tools]. *)
Definition after_first_round : list Message :=
  initial_messages
    ++ [mkMessage assistant (MResponse (Ok [search_block]));
        mkMessage user
          (MResults [mkToolResult "tool_1" "Found: Python fundamentals lesson"])].

Definition second_response : Response :=
  tool_response [TextBlock "Let me look at the outline"; outline_block].

Definition after_second_round : list Message :=
  after_first_round
    ++ [mkMessage assistant (MResponse (content second_response));
        mkMessage user
          (MResults [mkToolResult "tool_2"
                       "Error executing tool: Tool execution failed"])].

(** The log of the first round of [always_tools], and of its two rounds. *)
Definition first_round_log : list Event :=
  [ LLMCall (tool_request initial_messages) (Ok (tool_response [search_block]));
    ToolCall "search_course_content" [("query", "python basics")]
      (Ok "Found: Python fundamentals lesson") ].

Definition second_round_log : list Event :=
  [ LLMCall (tool_request after_first_round) (Ok second_response);
    ToolCall "get_course_outline" [("course_name", "MCP")]
      (Raise "Tool execution failed") ].

Definition final_event : Event :=
  LLMCall (plain_request after_second_round)
    (Ok (text_response "Final answer after max rounds")).

(** The worlds [always_tools] goes through. *)
Definition before_final_request : Script :=
  mkScript [Ok (text_response "Final answer after max rounds")] [].

Definition used_up : Script := mkScript [] [].

(** What [always_tools] logs after its first request when no catalog is
    given. *)
Definition no_catalog_rest : list Event :=
  [ ToolCall "search_course_content" [("query", "python basics")]
      (Ok "Found: Python fundamentals lesson");
    LLMCall (plain_request after_first_round) (Ok second_response);
    ToolCall "get_course_outline" [("course_name", "MCP")]
      (Raise "Tool execution failed");
    final_event ].


End Scenario.

(* ================================================================== *)
(** ** Requests, answers and tool calls of a whole run *)

(** The call a round makes for a tool-use block. *)
Definition call_of (b : ContentBlock) : string * kwargs :=
  (block_name b, block_input b).

(** The tool calls the model asks for in the responses to the first
    [budget] requests of a log: those of the tool-use blocks of every
    response that signals tool use. *)
Fixpoint requested_calls (budget : nat) (t : list Event) : list (string * kwargs) :=
  match t with
  | [] => []
  | ToolCall _ _ _ :: t' => requested_calls budget t'
  | LLMCall _ o :: t' =>
      match budget with
      | O => []
      | S budget' =>
          match o with
          | Ok response =>
              if (stop_reason response =? "tool_use")%string then
                match content response with
                | Ok blocks => map call_of (tool_uses blocks)
                | Raise _ => []
                end
              else []
          | Raise _ => []
          end ++ requested_calls budget' t'
      end
  end.

(** What a run returns, read off the outcome of its last request:
    [in_loop] tells whether that request was one of the loop, [executor]
    whether a tool manager was given. *)
Definition answer_of (in_loop executor : bool) (o : Exc Response) : Exc string :=
  match o with
  | Raise e =>
      Ok ((if in_loop then "Error generating response: "
           else "Error generating final response: ") ++ e)%string
  | Ok response =>
      match content response with
      | Ok blocks => Ok (first_text blocks)
      | Raise e =>
          if in_loop && (stop_reason response =? "tool_use")%string && executor
          then Raise e
          else Ok ("Error extracting response text: " ++ e)%string
      end
  end.

(** The request sent at position [i] of a run with budget [k], given the
    messages it carries. *)
Definition request_at (model system_content : string) (tools : option (list Tool))
  (executor : bool) (k : Z) (i : nat) (messages : list Message) : ApiParams :=
  if (Z.of_nat i <? k) && truthy_list tools && executor then
    mkApiParams model 0 800 messages system_content tools (Some tool_choice_auto)
  else mkApiParams model 0 800 messages system_content None None.

(** More scripts for the collaborators. *)
Module Scripts.

(** The model answers at once, although its content holds a tool-use block. *)
Definition direct_answer : Scenario.Script :=
  Scenario.mkScript
    [ Ok (mkResponse "end_turn"
            (Ok [Scenario.search_block; TextBlock "I can answer this directly"])) ]
    [ Ok "never used" ].

(** The model asks for two tools in one response, then answers. *)
Definition two_tools_then_answer : Scenario.Script :=
  Scenario.mkScript
    [ Ok (Scenario.tool_response [Scenario.search_block; Scenario.outline_block]);
      Ok (Scenario.text_response "Based on the outline and search results") ]
    [ Raise "Tool execution failed"; Raise "Tool execution failed" ].


End Scripts.

(* ================================================================== *)
(** * The test utilities of [backend/tests/test_utils.py] *)

(** [str(n)] for a natural number. *)
Definition str_of_nat (n : nat) : string :=
  DecimalString.NilEmpty.string_of_uint (Nat.to_uint n).

(** [l[:stop]]: a negative [stop] counts from the end. *)
Definition slice_to {A : Type} (l : list A) (stop : Z) : list A :=
  if stop <? 0 then firstn (Z.to_nat (Z.of_nat (List.length l) + stop)) l
  else firstn (Z.to_nat stop) l.

(** [range(stop)]. *)
Definition range (stop : Z) : list nat := seq 0 (Z.to_nat stop).

(** [l.index(x)]: [None] stands for the [ValueError]. *)
Fixpoint list_index (x : string) (l : list string) : option nat :=
  match l with
  | [] => None
  | y :: l' =>
      if (y =? x)%string then Some O
      else match list_index x l' with
           | Some i => Some (S i)
           | None => None
           end
  end.

(** [l] without its element at [i]. *)
Definition without {A : Type} (i : nat) (l : list A) : list A :=
  firstn i l ++ skipn (S i) l.

(** [l.pop(i)] for [0 <= i]: the list without its element at [i], or the
    [IndexError]. *)
Definition list_pop {A : Type} (l : list A) (i : nat) : Exc (list A) :=
  if (i <? List.length l)%nat then Ok (without i l)
  else Raise "pop index out of range".

(** ** [MockChromaDBCollection] *)

Module MockChromaDBCollection.

Section Collection.

(** A metadata dictionary, with [{}]; an embedding, with [[0.1] * 384]; a
    distance, with the float product [0.1 * i]. *)
Variable Metadata : Type.
Variable empty_metadata : Metadata.
Variable Embedding : Type.
Variable default_embedding : Embedding.
Variable Distance : Type.
Variable tenth_times : nat -> Distance.

Record Collection : Type := mkCollection {
  documents : list string;
  metadatas : list Metadata;
  ids : list string;
  embeddings : list Embedding;
  _id_counter : nat
}.

Definition __init__ : Collection := mkCollection [] [] [] [] 0.

(** The [documents] argument of [add]: a list, or anything else. *)
Inductive DocumentsArg : Type :=
| one_document (doc : string)
| document_list (docs : list string).

(** The documents the loop of [add] goes through: [documents], or
    [[documents]] when it is not a list. *)
Definition documents_of (documents_arg : DocumentsArg) : list string :=
  match documents_arg with
  | one_document doc => [doc]
  | document_list docs => docs
  end.

(** [arg[i] if arg else default]. *)
Definition item_or {A : Type} (arg : option (list A)) (i : nat) (default : A) : Exc A :=
  if truthy_list arg then
    match arg with
    | Some l =>
        match nth_error l i with
        | Some x => Ok x
        | None => Raise "list index out of range"
        end
    | None => Ok default
    end
  else Ok default.

(** One iteration of the loop of [add]: four appends, each after the
    expression it appends was evaluated; an [IndexError] leaves the appends
    made so far in place. *)
Definition add_one (c : Collection) (i : nat) (doc : string)
  (metadatas_arg : option (list Metadata)) (ids_arg : option (list string))
  (embeddings_arg : option (list Embedding)) : Collection * Exc unit :=
  let c1 := mkCollection (documents c ++ [doc]) (metadatas c) (ids c)
              (embeddings c) (_id_counter c) in
  match item_or metadatas_arg i empty_metadata with
  | Raise e => (c1, Raise e)
  | Ok m =>
      let c2 := mkCollection (documents c1) (metadatas c1 ++ [m]) (ids c1)
                  (embeddings c1) (_id_counter c1) in
      match item_or ids_arg i ("id_" ++ str_of_nat (_id_counter c2))%string with
      | Raise e => (c2, Raise e)
      | Ok id =>
          let c3 := mkCollection (documents c2) (metadatas c2) (ids c2 ++ [id])
                      (embeddings c2) (_id_counter c2) in
          match item_or embeddings_arg i default_embedding with
          | Raise e => (c3, Raise e)
          | Ok emb =>
              (mkCollection (documents c3) (metadatas c3) (ids c3)
                 (embeddings c3 ++ [emb]) (S (_id_counter c3)),
               Ok tt)
          end
      end
  end.

(** [for i, doc in enumerate(documents)], from index [i] on. *)
Fixpoint add_from (c : Collection) (i : nat) (docs : list string)
  (metadatas_arg : option (list Metadata)) (ids_arg : option (list string))
  (embeddings_arg : option (list Embedding)) : Collection * Exc unit :=
  match docs with
  | [] => (c, Ok tt)
  | doc :: rest =>
      match add_one c i doc metadatas_arg ids_arg embeddings_arg with
      | (c', Ok _) => add_from c' (S i) rest metadatas_arg ids_arg embeddings_arg
      | (c', Raise e) => (c', Raise e)
      end
  end.

Definition add (c : Collection) (documents_arg : DocumentsArg)
  (metadatas_arg : option (list Metadata)) (ids_arg : option (list string))
  (embeddings_arg : option (list Embedding)) : Collection * Exc unit :=
  add_from c 0 (documents_of documents_arg) metadatas_arg ids_arg embeddings_arg.

(** The dictionary [query] returns. *)
Record QueryResult : Type := mkQueryResult {
  result_documents : list (list string);
  result_metadatas : list (list Metadata);
  result_ids : list (list string);
  result_distances : list (list Distance)
}.

Definition query (c : Collection) (n_results : Z) : QueryResult :=
  let results_count := Z.min n_results (Z.of_nat (List.length (documents c))) in
  mkQueryResult
    [slice_to (documents c) results_count]
    [slice_to (metadatas c) results_count]
    [slice_to (ids c) results_count]
    [map tenth_times (range results_count)].

Definition count (c : Collection) : nat := List.length (documents c).

(** The body of the loop of [delete]: the [ValueError] of [index] is
    caught, the [IndexError] of a [pop] is not. *)
Definition delete_one (c : Collection) (id_to_delete : string) : Collection * Exc unit :=
  match list_index id_to_delete (ids c) with
  | None => (c, Ok tt)
  | Some idx =>
      match list_pop (documents c) idx with
      | Raise e => (c, Raise e)
      | Ok documents' =>
          let c1 := mkCollection documents' (metadatas c) (ids c) (embeddings c)
                      (_id_counter c) in
          match list_pop (metadatas c1) idx with
          | Raise e => (c1, Raise e)
          | Ok metadatas' =>
              let c2 := mkCollection (documents c1) metadatas' (ids c1) (embeddings c1)
                          (_id_counter c1) in
              match list_pop (ids c2) idx with
              | Raise e => (c2, Raise e)
              | Ok ids' =>
                  let c3 := mkCollection (documents c2) (metadatas c2) ids'
                              (embeddings c2) (_id_counter c2) in
                  match list_pop (embeddings c3) idx with
                  | Raise e => (c3, Raise e)
                  | Ok embeddings' =>
                      (mkCollection (documents c3) (metadatas c3) (ids c3) embeddings'
                         (_id_counter c3),
                       Ok tt)
                  end
              end
          end
      end
  end.

Fixpoint delete_each (c : Collection) (ids_to_delete : list string)
  : Collection * Exc unit :=
  match ids_to_delete with
  | [] => (c, Ok tt)
  | id_to_delete :: rest =>
      match delete_one c id_to_delete with
      | (c', Ok _) => delete_each c' rest
      | (c', Raise e) => (c', Raise e)
      end
  end.

Definition delete (c : Collection) (ids_arg : option (list string))
  : Collection * Exc unit :=
  if truthy_list ids_arg then
    match ids_arg with
    | Some ids_to_delete => delete_each c ids_to_delete
    | None => (c, Ok tt)
    end
  else (c, Ok tt).

(** The four lists describe the same entries. *)
Definition aligned (c : Collection) : Prop :=
  List.length (metadatas c) = List.length (documents c) /\
  List.length (ids c) = List.length (documents c) /\
  List.length (embeddings c) = List.length (documents c).

(** Aligned lists, distinct ids, each id generated from a value the
    counter has passed. *)
Definition generated (c : Collection) : Prop :=
  aligned c /\
  NoDup (ids c) /\
  forall id, In id (ids c) ->
    exists n, (n < _id_counter c)%nat /\ id = ("id_" ++ str_of_nat n)%string.

(** Whether the optional list [arg] yields an item for each of [n]
    documents: it is falsy, or at least [n] long. *)
Definition covers {A : Type} (arg : option (list A)) (n : nat) : bool :=
  negb (truthy_list arg)
  || match arg with
     | Some l => (n <=? List.length l)%nat
     | None => true
     end.

(** A call of [add] that names no ids, or a call of [delete]. *)
Inductive Operation : Type :=
| op_add (documents_arg : DocumentsArg) (metadatas_arg : option (list Metadata))
    (embeddings_arg : option (list Embedding))
| op_delete (ids_arg : option (list string)).

(** A sequence of calls, up to the first that raises. *)
Fixpoint apply_operations (c : Collection) (ops : list Operation)
  : Collection * Exc unit :=
  match ops with
  | [] => (c, Ok tt)
  | op :: rest =>
      match
        match op with
        | op_add d m e => add c d m None e
        | op_delete i => delete c i
        end
      with
      | (c', Ok _) => apply_operations c' rest
      | (c', Raise e) => (c', Raise e)
      end
  end.

End Collection.

End MockChromaDBCollection.

Module Coll := MockChromaDBCollection.

(** ** [TestDataGenerator.large_text_content] *)

Module TestDataGenerator.

Definition words : list string :=
  ["test"; "content"; "sample"; "data"; "large"; "text"; "chunk"].

(** [content[:stop]] on a string. *)
Definition str_slice_to (content : string) (stop : Z) : string :=
  if stop <? 0 then
    substring 0 (Z.to_nat (Z.of_nat (String.length content) + stop)) content
  else substring 0 (Z.to_nat stop) content.

(** [while len(content) < target_chars: content += " ".join(words) + " "],
    cut after [fuel] iterations. *)
Fixpoint fill (fuel : nat) (target_chars : Z) (content : string) : option string :=
  if Z.of_nat (String.length content) <? target_chars then
    match fuel with
    | O => None
    | S fuel' =>
        fill fuel' target_chars (content ++ (String.concat " " words ++ " "))%string
    end
  else Some content.

Definition large_text_content_fuel (fuel : nat) (size_kb : Z) : option string :=
  let target_chars := size_kb * 1024 in
  match fill fuel target_chars "" with
  | Some content => Some (str_slice_to content target_chars)
  | None => None
  end.

(** One iteration adds at least one character, so [target_chars]
    iterations are enough. *)
Definition large_text_content (size_kb : Z) : option string :=
  large_text_content_fuel (Z.to_nat (size_kb * 1024)) size_kb.

End TestDataGenerator.

(** ** Sample collections *)

Module Shelf.

(** Metadata, embeddings and distances are stood for by numbers here: [0]
    is the empty dictionary and the default embedding, and [i] the distance
    [0.1 * i]. *)
Definition empty : Coll.Collection nat nat := Coll.__init__ nat nat.

Definition three : Coll.Collection nat nat :=
  Coll.mkCollection ["a"; "b"; "c"] [0; 0; 0]%nat ["id_0"; "id_1"; "id_2"]
    [0; 0; 0]%nat 3.

Definition four : Coll.Collection nat nat :=
  Coll.mkCollection ["a"; "b"; "c"; "d"] [0; 0; 0; 0]%nat
    ["id_0"; "id_1"; "id_2"; "id_3"] [0; 0; 0; 0]%nat 4.

(** What is left of [three] after an [add] of two documents with one
    embedding. *)
Definition broken : Coll.Collection nat nat :=
  Coll.mkCollection ["a"; "b"; "c"; "d"; "e"] [0; 0; 0; 0; 0]%nat
    ["id_0"; "id_1"; "id_2"; "id_3"; "id_4"] [0; 0; 0; 7]%nat 4.

(** The same id twice. *)
Definition twice : Coll.Collection nat nat :=
  Coll.mkCollection ["old"; "other"; "new"] [1; 2; 3]%nat ["x"; "y"; "x"]
    [4; 5; 6]%nat 0.

End Shelf.

(* ================================================================== *)
(** * Properties *)

(** ** Logs *)

Lemma llm_requests_app (t1 t2 : list Event) :
  llm_requests (t1 ++ t2) = llm_requests t1 ++ llm_requests t2.
Proof.
  induction t1 as [|[p o|n i o] t1 IH]; simpl; [reflexivity| |assumption].
  now rewrite IH.
Qed.

Lemma tool_calls_app (t1 t2 : list Event) :
  tool_calls (t1 ++ t2) = tool_calls t1 ++ tool_calls t2.
Proof.
  induction t1 as [|[p o|n i o] t1 IH]; simpl; [reflexivity|assumption|].
  now rewrite IH.
Qed.

Lemma count_llm_calls_app (t1 t2 : list Event) :
  count_llm_calls (t1 ++ t2) = (count_llm_calls t1 + count_llm_calls t2)%nat.
Proof. unfold count_llm_calls. now rewrite filter_app, length_app. Qed.

Lemma count_tool_rounds_app (t1 t2 : list Event) :
  count_tool_rounds (t1 ++ t2) = (count_tool_rounds t1 + count_tool_rounds t2)%nat.
Proof. unfold count_tool_rounds. now rewrite filter_app, length_app. Qed.

Lemma count_tool_rounds_le_llm (t : list Event) :
  (count_tool_rounds t <= count_llm_calls t)%nat.
Proof.
  unfold count_tool_rounds, count_llm_calls.
  induction t as [|[p o|n i o] t IH]; simpl; [lia| |assumption].
  destruct (api_tools p), (api_tool_choice p); simpl; lia.
Qed.

Lemma count_llm_calls_requests (t : list Event) :
  count_llm_calls t = List.length (llm_requests t).
Proof.
  unfold count_llm_calls.
  induction t as [|[p o|n i o] t IH]; simpl; [reflexivity| |assumption].
  now rewrite IH.
Qed.

(** The log of a round holds tool executions only. *)
Lemma round_events_requests (uses : list ContentBlock) (os : list (Exc string)) :
  llm_requests (round_events uses os) = [].
Proof.
  unfold round_events.
  induction (combine uses os) as [|bo l IH]; simpl; [reflexivity|assumption].
Qed.

Lemma round_events_no_llm (uses : list ContentBlock) (os : list (Exc string)) :
  count_llm_calls (round_events uses os) = 0%nat.
Proof. now rewrite count_llm_calls_requests, round_events_requests. Qed.

Lemma round_events_tool_calls (uses : list ContentBlock) (os : list (Exc string)) :
  List.length os = List.length uses ->
  tool_calls (round_events uses os)
  = map (fun b => (block_name b, block_input b)) uses.
Proof.
  unfold round_events. revert os.
  induction uses as [|b uses IH]; intros [|o os] Hlen; simpl in *;
    try reflexivity; try discriminate.
  f_equal. apply IH. lia.
Qed.

Lemma round_results_ids (uses : list ContentBlock) (os : list (Exc string)) :
  List.length os = List.length uses ->
  map tool_use_id (round_results uses os) = map block_id uses.
Proof.
  unfold round_results. revert os.
  induction uses as [|b uses IH]; intros [|o os] Hlen; simpl in *;
    try reflexivity; try discriminate.
  f_equal. apply IH. lia.
Qed.

Lemma round_results_length (uses : list ContentBlock) (os : list (Exc string)) :
  List.length os = List.length uses ->
  List.length (round_results uses os) = List.length uses.
Proof.
  intros H. rewrite <- (length_map tool_use_id), round_results_ids by assumption.
  apply length_map.
Qed.

(** ** One tool round *)

Lemma tool_uses_cons (b : ContentBlock) (blocks : list ContentBlock) :
  tool_uses (b :: blocks)
  = if is_tool_use b then b :: tool_uses blocks else tool_uses blocks.
Proof. reflexivity. Qed.

Section RoundProperties.

Variable World : Type.
Implicit Types (tm : ToolManager World) (w : World).

Lemma tool_outcomes_length tm uses w :
  List.length (snd (tool_outcomes tm uses w)) = List.length uses.
Proof.
  revert w. induction uses as [|b uses IH]; intros w; simpl; [reflexivity|].
  destruct (tm w (block_name b) (block_input b)) as [w1 o].
  specialize (IH w1). destruct (tool_outcomes tm uses w1) as [w2 os].
  simpl in *. now rewrite IH.
Qed.

(** The loop over the blocks executes the tool-use blocks in order and
    files one result for each. *)
Lemma run_tool_blocks_eq tm blocks acc w :
  run_tool_blocks tm blocks acc w
  = let (w', os) := tool_outcomes tm (tool_uses blocks) w in
    (w', round_events (tool_uses blocks) os,
     acc ++ round_results (tool_uses blocks) os).
Proof.
  revert acc w. induction blocks as [|b blocks IH]; intros acc w.
  - simpl. unfold ret. now rewrite app_nil_r.
  - rewrite tool_uses_cons. cbn [run_tool_blocks]. unfold is_tool_use.
    destruct (block_type b =? "tool_use")%string; [|apply IH].
    unfold bind, execute_tool. cbn [tool_outcomes].
    destruct (tm w (block_name b) (block_input b)) as [w1 o].
    destruct o as [s|e]; rewrite IH;
      destruct (tool_outcomes tm (tool_uses blocks) w1) as [w2 os];
      unfold round_events, round_results; cbn [combine map fst snd app];
      now rewrite <- app_assoc.
Qed.

Lemma execute_tool_round_raise response ms tm w e :
  content response = Raise e ->
  _execute_tool_round response ms tm w
  = (w, [], (ms ++ [mkMessage assistant (MResponse (content response))], Raise e)).
Proof. intros H. unfold _execute_tool_round. rewrite H. reflexivity. Qed.

Lemma execute_tool_round_ok response ms tm w blocks w' os :
  content response = Ok blocks ->
  tool_outcomes tm (tool_uses blocks) w = (w', os) ->
  _execute_tool_round response ms tm w
  = (w', round_events (tool_uses blocks) os,
     match tool_uses blocks with
     | [] => (ms ++ [mkMessage assistant (MResponse (content response))], Ok false)
     | _ :: _ =>
         (ms ++ [mkMessage assistant (MResponse (content response));
                 mkMessage user (MResults (round_results (tool_uses blocks) os))],
          Ok true)
     end).
Proof.
  intros Hc Ho. unfold _execute_tool_round. rewrite Hc.
  unfold bind. rewrite run_tool_blocks_eq, Ho. cbn [app].
  pose proof (tool_outcomes_length tm (tool_uses blocks) w) as Hlen.
  rewrite Ho in Hlen. cbn [snd] in Hlen.
  destruct (tool_uses blocks) as [|b uses]; destruct os as [|o os];
    try discriminate; unfold ret.
  - reflexivity.
  - cbn. rewrite app_nil_r, <- app_assoc. reflexivity.
Qed.

End RoundProperties.

(** ** The loop and its relational presentation *)

Section LoopProperties.

Variable World : Type.
Variable self : AIGenerator World.
Variable system_content : string.
Variable tools : option (list Tool).
Variable tool_manager : option (ToolManager World).
Variable max_rounds : Z.

Local Abbreviation loop := (while_loop self system_content tools tool_manager max_rounds).
Local Abbreviation runs := (loop_run self system_content tools tool_manager max_rounds).
Local Abbreviation request := (loop_api_params self system_content tools tool_manager).

(** Every answer of the function is a run of the relation. *)
Lemma while_loop_sound fuel :
  forall rc ms w w' t exit,
    loop fuel rc ms w = (w', t, Some exit) -> runs rc ms w w' t exit.
Proof.
  induction fuel as [|fuel IH]; intros rc ms w w' t exit H; cbn [while_loop] in H;
    destruct (Z.ltb_spec rc max_rounds) as [Hlt|Hge];
    try (injection H as <- <- <-; now constructor); try discriminate.
  unfold bind, messages_create in H.
  destruct (client self w (request ms)) as [w1 [response|e]] eqn:Hc;
    [|injection H as <- <- <-; now constructor].
  destruct (py_and (stop_reason response =? "tool_use")%string tool_manager)
    as [tm|] eqn:Hp; [|injection H as <- <- <-; now constructor].
  destruct (content response) as [blocks|e] eqn:Hcont.
  - destruct (tool_outcomes tm (tool_uses blocks) w1) as [w2 os] eqn:Ho.
    rewrite execute_tool_round_ok with (1 := Hcont) (2 := Ho) in H.
    destruct (tool_uses blocks) as [|b uses] eqn:Hu.
    + cbn in Ho. injection Ho as <- <-. injection H as <- <- <-.
      eapply run_degenerate; eauto.
    + destruct (loop fuel (rc + 1) _ w2) as [[w3 t3] o3] eqn:Hl.
      injection H as <- <- ->. rewrite <- Hu in *.
      eapply run_round; eauto. rewrite Hu. discriminate.
  - rewrite execute_tool_round_raise with (1 := Hcont) in H.
    injection H as <- <- <-.
    eapply run_content_error; eauto.
Qed.

(** Every run of the relation is the answer of the function, for any fuel
    that covers the rounds that are left. *)
Lemma while_loop_complete rc ms w w' t exit :
  runs rc ms w w' t exit ->
  forall fuel, (Z.to_nat (max_rounds - rc) <= fuel)%nat ->
    loop fuel rc ms w = (w', t, Some exit).
Proof.
  induction 1 as
    [ rc ms w Hge
    | rc ms w w1 e Hlt Hc
    | rc ms w w1 response Hlt Hc Hp
    | rc ms w w1 response tm e Hlt Hc Hp Hcont
    | rc ms w w1 response tm blocks Hlt Hc Hp Hcont Hu
    | rc ms w w1 response tm blocks w2 os w3 t exit Hlt Hc Hp Hcont Hu Ho Hrun IH ];
    intros fuel Hfuel.
  - destruct fuel; cbn [while_loop];
      destruct (Z.ltb_spec rc max_rounds); try lia; reflexivity.
  - destruct fuel as [|fuel]; [lia|]. cbn [while_loop].
    destruct (Z.ltb_spec rc max_rounds); [|lia].
    unfold bind, messages_create. rewrite Hc. reflexivity.
  - destruct fuel as [|fuel]; [lia|]. cbn [while_loop].
    destruct (Z.ltb_spec rc max_rounds); [|lia].
    unfold bind, messages_create. rewrite Hc, Hp. reflexivity.
  - destruct fuel as [|fuel]; [lia|]. cbn [while_loop].
    destruct (Z.ltb_spec rc max_rounds); [|lia].
    unfold bind, messages_create. rewrite Hc, Hp.
    rewrite execute_tool_round_raise with (1 := Hcont). reflexivity.
  - destruct fuel as [|fuel]; [lia|]. cbn [while_loop].
    destruct (Z.ltb_spec rc max_rounds); [|lia].
    unfold bind, messages_create. rewrite Hc, Hp.
    destruct (tool_outcomes tm (tool_uses blocks) w1) as [w2 os] eqn:Ho.
    rewrite execute_tool_round_ok with (1 := Hcont) (2 := Ho). rewrite Hu in *.
    cbn in Ho. injection Ho as <- <-. reflexivity.
  - destruct fuel as [|fuel]; [lia|]. cbn [while_loop].
    destruct (Z.ltb_spec rc max_rounds); [|lia].
    unfold bind, messages_create. rewrite Hc, Hp.
    rewrite execute_tool_round_ok with (1 := Hcont) (2 := Ho).
    destruct (tool_uses blocks) as [|b uses] eqn:Hb; [congruence|].
    rewrite (IH fuel) by lia. reflexivity.
Qed.

(** The loop ends: fuel for the rounds that are left is enough. *)
Lemma while_loop_terminates fuel :
  forall rc ms w,
    (Z.to_nat (max_rounds - rc) <= fuel)%nat ->
    exists w' t exit, loop fuel rc ms w = (w', t, Some exit).
Proof.
  induction fuel as [|fuel IH]; intros rc ms w Hfuel; cbn [while_loop];
    destruct (Z.ltb_spec rc max_rounds) as [Hlt|Hge];
    try lia; try (do 3 eexists; reflexivity).
  unfold bind, messages_create.
  destruct (client self w (request ms)) as [w1 [response|e]];
    [|do 3 eexists; reflexivity].
  destruct (py_and (stop_reason response =? "tool_use")%string tool_manager)
    as [tm|]; [|do 3 eexists; reflexivity].
  destruct (_execute_tool_round response ms tm w1) as [[w2 t2] [ms' [[|]|e]]];
    try (do 3 eexists; reflexivity).
  destruct (IH (rc + 1) ms' w2) as (w3 & t3 & exit & H3); [lia|].
  rewrite H3. do 3 eexists; reflexivity.
Qed.

(** The relation is a function of the entry state. *)
Lemma loop_run_deterministic rc ms w w1 t1 exit1 w2 t2 exit2 :
  runs rc ms w w1 t1 exit1 -> runs rc ms w w2 t2 exit2 ->
  (w1, t1, exit1) = (w2, t2, exit2).
Proof.
  intros H1 H2.
  pose proof (while_loop_complete H1 (le_n _)) as E1.
  pose proof (while_loop_complete H2 (le_n _)) as E2.
  congruence.
Qed.

End LoopProperties.

(** ** What a run of the loop logs *)

Lemma round_events_tool_only (uses : list ContentBlock) (os : list (Exc string)) (x : Event) :
  In x (round_events uses os) -> is_llm_call x = false.
Proof.
  unfold round_events. intros H. apply in_map_iff in H as (bo & <- & _). reflexivity.
Qed.

(** A request found in a log that starts with tool executions lies behind
    them. *)
Lemma split_after_tool_events (A B t1 t2 : list Event) (x : Event) :
  (forall y, In y A -> is_llm_call y = false) ->
  is_llm_call x = true ->
  A ++ B = t1 ++ x :: t2 ->
  exists t1', t1 = A ++ t1' /\ B = t1' ++ x :: t2.
Proof.
  revert t1. induction A as [|a A IH]; intros t1 HA Hx E.
  - exists t1. split; [reflexivity|assumption].
  - destruct t1 as [|y t1]; simpl in E; injection E as E1 E2.
    + subst a. rewrite (HA x) in Hx by now left. discriminate.
    + subst y. destruct (IH t1) as (t1' & -> & ->); auto.
      * intros z Hz. apply HA. now right.
      * exists t1'. split; reflexivity.
Qed.

Section RunProperties.

Variable World : Type.
Variable self : AIGenerator World.
Variable system_content : string.
Variable tools : option (list Tool).
Variable tool_manager : option (ToolManager World).
Variable max_rounds : Z.

Local Abbreviation loop := (while_loop self system_content tools tool_manager max_rounds).
Local Abbreviation runs := (loop_run self system_content tools tool_manager max_rounds).
Local Abbreviation request := (loop_api_params self system_content tools tool_manager).
Local Abbreviation final_request := (base_api_params self system_content).

(** The loop sends at most one request per round that is left, and when it
    leaves because its condition is false it has sent exactly that many and
    the counter has reached the budget. *)
Lemma loop_run_budget rc ms w w' t exit :
  runs rc ms w w' t exit ->
  (count_llm_calls t <= Z.to_nat (max_rounds - rc))%nat /\
  match exit with
  | Exhausted _ rc' =>
      count_llm_calls t = Z.to_nat (max_rounds - rc) /\ rc' = Z.max rc max_rounds
  | Returned _ rc' _ => rc <= rc' < max_rounds
  end.
Proof.
  induction 1 as
    [ rc ms w Hge | rc ms w w1 e Hlt Hc | rc ms w w1 response Hlt Hc Hp
    | rc ms w w1 response tm e Hlt Hc Hp Hcont
    | rc ms w w1 response tm blocks Hlt Hc Hp Hcont Hu
    | rc ms w w1 response tm blocks w2 os w3 t exit Hlt Hc Hp Hcont Hu Ho Hrun IH ];
    try (cbn; split; lia).
  destruct IH as [IH1 IH2].
  change (LLMCall (request ms) (Ok response) :: round_events (tool_uses blocks) os ++ t)
    with ([LLMCall (request ms) (Ok response)] ++ round_events (tool_uses blocks) os ++ t).
  rewrite !count_llm_calls_app, round_events_no_llm.
  change (count_llm_calls [LLMCall (request ms) (Ok response)]) with 1%nat.
  split; [lia|]. destruct exit; lia.
Qed.

(** The part of a log that starts at a request is itself a run of the loop,
    from the state the loop had when it sent the request. *)
Lemma loop_run_at_call rc ms w w' t exit :
  runs rc ms w w' t exit ->
  forall t1 p o t2,
    t = t1 ++ LLMCall p o :: t2 ->
    exists rc' ms' w0,
      rc' = rc + Z.of_nat (count_llm_calls t1) /\
      rc' < max_rounds /\
      prefix_of ms ms' /\
      p = request ms' /\
      runs rc' ms' w0 w' (LLMCall p o :: t2) exit.
Proof.
  induction 1 as
    [ rc ms w Hge | rc ms w w1 e Hlt Hc | rc ms w w1 response Hlt Hc Hp
    | rc ms w w1 response tm e Hlt Hc Hp Hcont
    | rc ms w w1 response tm blocks Hlt Hc Hp Hcont Hu
    | rc ms w w1 response tm blocks w2 os w3 t exit Hlt Hc Hp Hcont Hu Ho Hrun IH ];
    intros t1 p o t2 E.
  - now destruct t1.
  - destruct t1 as [|x [|y t1]]; try discriminate E. injection E as <- <- <-.
    exists rc, ms, w. repeat split; try (cbn; lia).
    + exists []. now rewrite app_nil_r.
    + now constructor.
  - destruct t1 as [|x [|y t1]]; try discriminate E. injection E as <- <- <-.
    exists rc, ms, w. repeat split; try (cbn; lia).
    + exists []. now rewrite app_nil_r.
    + now constructor.
  - destruct t1 as [|x [|y t1]]; try discriminate E. injection E as <- <- <-.
    exists rc, ms, w. repeat split; try (cbn; lia).
    + exists []. now rewrite app_nil_r.
    + eapply run_content_error; eauto.
  - destruct t1 as [|x [|y t1]]; try discriminate E. injection E as <- <- <-.
    exists rc, ms, w. repeat split; try (cbn; lia).
    + exists []. now rewrite app_nil_r.
    + eapply run_degenerate; eauto.
  - destruct t1 as [|x t1].
    + injection E as <- <- <-.
      exists rc, ms, w. repeat split; try (cbn; lia).
      * exists []. now rewrite app_nil_r.
      * eapply run_round; eauto.
    + injection E as <- E.
      apply split_after_tool_events in E as (t1' & -> & ->);
        [|apply round_events_tool_only|reflexivity].
      destruct (IH t1' p o t2 eq_refl) as (rc' & ms' & w0 & Hrc & Hlt' & Hpre & Hp' & Hr).
      exists rc', ms', w0. repeat split; try assumption.
      * change (LLMCall (request ms) (Ok response) :: round_events (tool_uses blocks) os ++ t1')
          with ([LLMCall (request ms) (Ok response)] ++ round_events (tool_uses blocks) os ++ t1').
        rewrite !count_llm_calls_app, round_events_no_llm.
        change (count_llm_calls [LLMCall (request ms) (Ok response)]) with 1%nat. lia.
      * destruct Hpre as [rest ->]. eexists. rewrite <- app_assoc. reflexivity.
Qed.

(** A run of the loop whose first logged event is a request is decided by
    what that request got back. *)
Lemma loop_run_first_raise rc ms w w' p e t2 exit :
  runs rc ms w w' (LLMCall p (Raise e) :: t2) exit ->
  t2 = [] /\ exit = Returned ms rc (Ok ("Error generating response: " ++ e)%string).
Proof. intros H. inversion H; subst. split; reflexivity. Qed.

(** What follows the loop, given how the loop was left. *)
Lemma run_from_eq fuel rc ms w w1 t1 exit :
  loop fuel rc ms w = (w1, t1, Some exit) ->
  run_from self system_content tools tool_manager max_rounds fuel rc ms w
  = match exit with
    | Returned ms' _ result => (w1, t1, Some (ms', result))
    | Exhausted ms' _ =>
        let (w2, r) := client self w1 (final_request ms') in
        (w2, t1 ++ [LLMCall (final_request ms') r], Some (ms', Ok (final_text r)))
    end.
Proof.
  intros H. unfold run_from, bind. rewrite H.
  destruct exit as [ms' rc' result|ms' rc']; cbn [after_loop].
  - unfold ret. now rewrite app_nil_r.
  - unfold bind, messages_create.
    destruct (client self w1 (final_request ms')) as [w2 [final_response|e]];
      reflexivity.
Qed.

End RunProperties.

Lemma loop_api_params_messages (World : Type) (self : AIGenerator World)
  (system_content : string) (tools : option (list Tool))
  (tm : option (ToolManager World)) (ms : list Message) :
  api_messages (loop_api_params self system_content tools tm ms) = ms.
Proof.
  unfold loop_api_params.
  destruct (truthy_list tools && truthy_obj tm); reflexivity.
Qed.

(** ** The round budget *)

(** C1 -- For every [max_rounds = k >= 0] and every behaviour of the client
    and of the tool manager, a run ends (the loop never needs more than [k]
    iterations, and more fuel changes nothing), at most [k] of its requests
    offer the tool catalog, and it sends at most [k + 1] requests in all. *)
Theorem round_budget_respected (World : Type) (self : AIGenerator World)
  (query : string) (history : option string) (tools : option (list Tool))
  (tm : option (ToolManager World)) (k : Z) (w : World) :
  0 <= k ->
  exists w' t messages result,
    generate_response self query history tools tm k w
    = (w', t, Some (messages, result)) /\
    (forall fuel, (Z.to_nat k <= fuel)%nat ->
       generate_response_fuel fuel self query history tools tm k w
       = (w', t, Some (messages, result))) /\
    Z.of_nat (count_tool_rounds t) <= k /\
    Z.of_nat (count_llm_calls t) <= k + 1.
Proof.
  intros Hk. unfold generate_response, generate_response_fuel.
  set (sys := build_system_content self history).
  set (ms0 := [mkMessage user (MText query)]).
  destruct (while_loop_terminates self sys tools tm k (fuel := Z.to_nat k) 0 ms0 w)
    as (w1 & t1 & exit & Hl); [lia|].
  pose proof Hl as Hrun. apply while_loop_sound in Hrun.
  destruct (loop_run_budget Hrun) as [Hcount _].
  pose proof (count_tool_rounds_le_llm t1) as Hoffer.
  destruct exit as [ms' rc' result|ms' rc'].
  - exists w1, t1, ms', result. split; [|split; [|lia]].
    + now rewrite run_from_eq with (1 := Hl).
    + intros fuel Hfuel.
      rewrite run_from_eq with (1 := while_loop_complete Hrun (fuel := fuel) ltac:(lia)).
      reflexivity.
  - destruct (client self w1 (base_api_params self sys ms')) as [w2 r] eqn:Hc.
    exists w2, (t1 ++ [LLMCall (base_api_params self sys ms') r]), ms', (Ok (final_text r)).
    split; [|split].
    + rewrite run_from_eq with (1 := Hl). now rewrite Hc.
    + intros fuel Hfuel.
      rewrite run_from_eq with (1 := while_loop_complete Hrun (fuel := fuel) ltac:(lia)).
      now rewrite Hc.
    + rewrite count_tool_rounds_app, count_llm_calls_app. cbn. lia.
Qed.

(** ** Transport errors inside the loop *)

(** C3 -- When a request of the loop (one sent before [k] requests were
    sent) raises, the run returns ["Error generating response: "] followed
    by the description of the exception, it does not raise itself, and
    nothing is logged after that request: no further request, no tool
    execution.  The message list is the one that request carried. *)
Theorem transport_error_in_loop (World : Type) (self : AIGenerator World)
  (query : string) (history : option string) (tools : option (list Tool))
  (tm : option (ToolManager World)) (k : Z) (w w' : World)
  (t t1 t2 : list Event) (p : ApiParams) (e : string)
  (out : option (list Message * Exc string)) :
  generate_response self query history tools tm k w = (w', t, out) ->
  t = t1 ++ LLMCall p (Raise e) :: t2 ->
  Z.of_nat (count_llm_calls t1) < k ->
  t2 = [] /\
  out = Some (api_messages p, Ok ("Error generating response: " ++ e)%string).
Proof.
  unfold generate_response, generate_response_fuel.
  set (sys := build_system_content self history).
  set (ms0 := [mkMessage user (MText query)]).
  intros Hrun_eq Ht Hidx.
  destruct (while_loop_terminates self sys tools tm k (fuel := Z.to_nat k) 0 ms0 w)
    as (w1 & t1l & exit & Hl); [lia|].
  pose proof Hl as Hrun. apply while_loop_sound in Hrun.
  rewrite run_from_eq with (1 := Hl) in Hrun_eq.
  destruct exit as [ms' rc' result|ms' rc'].
  - injection Hrun_eq as <- <- <-. subst t1l.
    destruct (loop_run_at_call Hrun _ _ _ _ eq_refl)
      as (rc1 & ms1 & w0 & _ & _ & _ & -> & Hsuffix).
    apply loop_run_first_raise in Hsuffix as [-> Hexit].
    injection Hexit as -> _ ->. rewrite loop_api_params_messages. now split.
  - exfalso.
    destruct (client self w1 (base_api_params self sys ms')) as [w2 r].
    injection Hrun_eq as <- <- <-.
    destruct (loop_run_budget Hrun) as [_ [Hcount _]].
    apply app_eq_app in Ht as [l [[E1 E2]|[E1 E2]]].
    + destruct l as [|x l].
      * rewrite app_nil_r in E1. subst t1l. lia.
      * injection E2 as <- E2. subst t1l.
        destruct (loop_run_at_call Hrun _ _ _ _ eq_refl)
          as (rc1 & ms1 & w0 & _ & _ & _ & -> & Hsuffix).
        apply loop_run_first_raise in Hsuffix as [_ Hexit]. discriminate.
    + subst t1. rewrite count_llm_calls_app in Hidx. lia.
Qed.

(** ** Runs of [generate_response] *)

(** A run of [generate_response] is a run of the loop from the seeded
    conversation, followed by what follows the loop. *)
Lemma generate_response_runs (World : Type) (self : AIGenerator World)
  (query : string) (history : option string) (tools : option (list Tool))
  (tm : option (ToolManager World)) (k : Z) (w : World) :
  let sys := build_system_content self history in
  let ms0 := [mkMessage user (MText query)] in
  exists w1 t1 exit,
    while_loop self sys tools tm k (Z.to_nat k) 0 ms0 w = (w1, t1, Some exit) /\
    loop_run self sys tools tm k 0 ms0 w w1 t1 exit /\
    generate_response self query history tools tm k w
    = match exit with
      | Returned ms' _ result => (w1, t1, Some (ms', result))
      | Exhausted ms' _ =>
          let (w2, r) := client self w1 (base_api_params self sys ms') in
          (w2, t1 ++ [LLMCall (base_api_params self sys ms') r],
           Some (ms', Ok (final_text r)))
      end.
Proof.
  intros sys ms0. subst sys ms0.
  destruct (while_loop_terminates self (build_system_content self history) tools tm k
              (fuel := Z.to_nat k) 0 [mkMessage user (MText query)] w)
    as (w1 & t1 & exit & Hl); [lia|].
  exists w1, t1, exit. split; [assumption|]. split.
  - now apply while_loop_sound in Hl.
  - unfold generate_response, generate_response_fuel.
    now rewrite run_from_eq with (1 := Hl).
Qed.

(** ** The final request *)

(** C5 -- When the loop is left because its condition is false (the counter
    has reached the budget), exactly one more request is sent: it carries
    the accumulated messages and the system prompt and neither tool key.
    The run returns the text extracted from its response, or ["Error
    generating final response: "] followed by the description when it
    raises.  With [max_rounds = 0] this request is the only one of the run. *)
Theorem final_request_without_tools (World : Type) (self : AIGenerator World)
  (query : string) (history : option string) (tools : option (list Tool))
  (tm : option (ToolManager World)) :
  let sys := build_system_content self history in
  let ms0 := [mkMessage user (MText query)] in
  (forall (k : Z) (w w1 w2 : World) (t1 : list Event) (ms : list Message)
          (rc : Z) (r : Exc Response),
      while_loop self sys tools tm k (Z.to_nat k) 0 ms0 w
      = (w1, t1, Some (Exhausted ms rc)) ->
      client self w1 (mkApiParams (model self) 0 800 ms sys None None) = (w2, r) ->
      rc = Z.max 0 k /\
      count_llm_calls t1 = Z.to_nat k /\
      generate_response self query history tools tm k w
      = (w2,
         t1 ++ [LLMCall (mkApiParams (model self) 0 800 ms sys None None) r],
         Some (ms,
               Ok match r with
                  | Ok final_response => _extract_text_from_response final_response
                  | Raise e => ("Error generating final response: " ++ e)%string
                  end))) /\
  (forall (w : World),
      generate_response self query history tools tm 0 w
      = let (w2, r) := client self w (mkApiParams (model self) 0 800 ms0 sys None None) in
        (w2,
         [LLMCall (mkApiParams (model self) 0 800 ms0 sys None None) r],
         Some (ms0,
               Ok match r with
                  | Ok final_response => _extract_text_from_response final_response
                  | Raise e => ("Error generating final response: " ++ e)%string
                  end))).
Proof.
  intros sys ms0. subst sys ms0. split.
  - intros k w w1 w2 t1 ms rc r Hl Hc.
    pose proof Hl as Hrun. apply while_loop_sound in Hrun.
    destruct (loop_run_budget Hrun) as [_ [Hcount Hrc]].
    split; [lia|]. split; [rewrite Hcount; f_equal; lia|].
    unfold generate_response, generate_response_fuel.
    rewrite run_from_eq with (1 := Hl).
    unfold base_api_params. rewrite Hc. reflexivity.
  - intros w. unfold generate_response, generate_response_fuel.
    rewrite run_from_eq
      with (w1 := w) (t1 := [])
           (exit := Exhausted [mkMessage user (MText query)] 0) by reflexivity.
    reflexivity.
Qed.

(** ** A tool-use response without tool-use blocks *)

Section DegenerateRound.

Variable World : Type.
Variable self : AIGenerator World.
Variable system_content : string.
Variable tools : option (list Tool).
Variable tool_manager : option (ToolManager World).
Variable max_rounds : Z.


End DegenerateRound.

Lemma first_text_sentinel (blocks : list ContentBlock) :
  (forall b, In b blocks -> block_text b = None) ->
  first_text blocks = "No text content in response".
Proof.
  induction blocks as [|b blocks IH]; intros H; [reflexivity|].
  cbn [first_text]. rewrite (H b) by now left.
  apply IH. intros b' Hb'. apply H. now right.
Qed.


(** ** Text extraction *)

Lemma first_text_first (pre post : list ContentBlock) (b : ContentBlock) (text : string) :
  (forall x, In x pre -> block_text x = None) ->
  block_text b = Some text ->
  first_text (pre ++ b :: post) = text.
Proof.
  induction pre as [|x pre IH]; intros Hpre Hb; cbn [app first_text].
  - now rewrite Hb.
  - rewrite (Hpre x) by now left. apply IH; [|assumption].
    intros y Hy. apply Hpre. now right.
Qed.

(** C8 -- Text extraction returns the text of the first block that exposes
    text, whatever follows it; the sentinel ["No text content in response"]
    when no block exposes text; and, when iterating over the content raises,
    the string ["Error extracting response text: "] followed by the
    description, instead of raising. *)
Theorem text_extraction (reason : string) :
  (forall (pre post : list ContentBlock) (b : ContentBlock) (text : string),
      (forall x, In x pre -> block_text x = None) ->
      block_text b = Some text ->
      _extract_text_from_response (mkResponse reason (Ok (pre ++ b :: post))) = text) /\
  (forall (blocks : list ContentBlock),
      (forall x, In x blocks -> block_text x = None) ->
      _extract_text_from_response (mkResponse reason (Ok blocks))
      = "No text content in response") /\
  (forall (e : string),
      _extract_text_from_response (mkResponse reason (Raise e))
      = ("Error extracting response text: " ++ e)%string).
Proof.
  split; [|split].
  - intros pre post b text Hpre Hb. now apply first_text_first.
  - intros blocks H. now apply first_text_sentinel.
  - reflexivity.
Qed.

(** ** The results of a round *)

(** C7 -- The user message a round appends holds exactly one tool result
    per tool-use block of the response, keyed to that block's id, in the
    order of the blocks. *)
Theorem tool_results_follow_tool_uses (World : Type) (tm : ToolManager World)
  (reason : string) (blocks : list ContentBlock) (ms : list Message) (w : World) :
  tool_uses blocks <> [] ->
  exists w' t results,
    _execute_tool_round (mkResponse reason (Ok blocks)) ms tm w
    = (w', t,
       (ms ++ [mkMessage assistant (MResponse (Ok blocks));
               mkMessage user (MResults results)],
        Ok true)) /\
    List.length results = List.length (tool_uses blocks) /\
    map tool_use_id results = map block_id (tool_uses blocks).
Proof.
  intros Hu.
  destruct (tool_outcomes tm (tool_uses blocks) w) as [w' os] eqn:Ho.
  pose proof (tool_outcomes_length tm (tool_uses blocks) w) as Hlen.
  rewrite Ho in Hlen. cbn [snd] in Hlen.
  exists w', (round_events (tool_uses blocks) os), (round_results (tool_uses blocks) os).
  split; [|split].
  - rewrite execute_tool_round_ok with (blocks := blocks) (w' := w') (os := os)
      by (reflexivity || assumption).
    destruct (tool_uses blocks); [congruence|reflexivity].
  - now apply round_results_length.
  - now apply round_results_ids.
Qed.

(** ** Runs that differ in the catalog only *)

Section SameRequests.

Variable World : Type.
Variable self : AIGenerator World.
Variable system_content : string.
Variable tools1 tools2 : option (list Tool).
Variable tool_manager : option (ToolManager World).
Variable max_rounds : Z.

Hypothesis same_request : forall ms,
  loop_api_params self system_content tools1 tool_manager ms
  = loop_api_params self system_content tools2 tool_manager ms.

(** The catalog matters to the loop through its requests only. *)
Lemma while_loop_same_requests fuel :
  forall rc ms w,
    while_loop self system_content tools1 tool_manager max_rounds fuel rc ms w
    = while_loop self system_content tools2 tool_manager max_rounds fuel rc ms w.
Proof.
  induction fuel as [|fuel IH]; intros rc ms w; cbn [while_loop]; [reflexivity|].
  destruct (rc <? max_rounds); [|reflexivity].
  unfold bind, messages_create. rewrite same_request.
  destruct (client self w _) as [w1 [response|e]]; [|reflexivity].
  destruct (py_and (stop_reason response =? "tool_use")%string tool_manager)
    as [tm|]; [|reflexivity].
  destruct (_execute_tool_round response ms tm w1) as [[w2 t2] [ms' [[|]|e]]];
    try reflexivity.
  now rewrite IH.
Qed.

Lemma run_from_same_requests fuel rc ms w :
  run_from self system_content tools1 tool_manager max_rounds fuel rc ms w
  = run_from self system_content tools2 tool_manager max_rounds fuel rc ms w.
Proof. unfold run_from, bind. now rewrite while_loop_same_requests. Qed.

End SameRequests.

Section NoCatalog.

Variable World : Type.
Variable self : AIGenerator World.
Variable system_content : string.
Variable tools : option (list Tool).
Variable tool_manager : option (ToolManager World).
Variable max_rounds : Z.

Hypothesis not_offered : truthy_list tools && truthy_obj tool_manager = false.

(** Unless both the catalog and the executor are truthy, no request of the
    loop carries a tool key. *)
Lemma loop_run_no_offer rc ms w w' t exit :
  loop_run self system_content tools tool_manager max_rounds rc ms w w' t exit ->
  forall p, In p (llm_requests t) -> api_tools p = None /\ api_tool_choice p = None.
Proof.
  assert (Hreq : forall ms0,
             loop_api_params self system_content tools tool_manager ms0
             = base_api_params self system_content ms0)
    by (intros ms0; unfold loop_api_params; now rewrite not_offered).
  induction 1 as
    [ rc ms w Hge | rc ms w w1 e Hlt Hc | rc ms w w1 response Hlt Hc Hp
    | rc ms w w1 response tm e Hlt Hc Hp Hcont
    | rc ms w w1 response tm blocks Hlt Hc Hp Hcont Hu
    | rc ms w w1 response tm blocks w2 os w3 t exit Hlt Hc Hp Hcont Hu Ho Hrun IH ];
    intros p Hin; cbn [llm_requests] in Hin;
    try (destruct Hin as [<-|[]]; rewrite Hreq; now split).
  - destruct Hin.
  - rewrite llm_requests_app, round_events_requests in Hin.
    destruct Hin as [<-|Hin]; [rewrite Hreq; now split|now apply IH].
Qed.

End NoCatalog.

(** Without an executor no run of the loop executes a tool. *)
Lemma loop_run_no_executor (World : Type) (self : AIGenerator World)
  (system_content : string) (tools : option (list Tool)) (max_rounds : Z)
  rc ms w w' t exit :
  loop_run self system_content tools None max_rounds rc ms w w' t exit ->
  tool_calls t = [].
Proof.
  induction 1 as
    [ rc ms w Hge | rc ms w w1 e Hlt Hc | rc ms w w1 response Hlt Hc Hp
    | rc ms w w1 response tm e Hlt Hc Hp Hcont
    | rc ms w w1 response tm blocks Hlt Hc Hp Hcont Hu
    | rc ms w w1 response tm blocks w2 os w3 t exit Hlt Hc Hp Hcont Hu Ho Hrun IH ];
    try reflexivity.
  unfold py_and in Hp. destruct (stop_reason response =? "tool_use")%string; discriminate.
Qed.

(** The requests and the tool executions of a whole run, from those of its
    loop. *)
Lemma generate_response_log (World : Type) (self : AIGenerator World)
  (query : string) (history : option string) (tools : option (list Tool))
  (tm : option (ToolManager World)) (k : Z) (w : World) :
  let sys := build_system_content self history in
  exists w1 t1 exit t2,
    loop_run self sys tools tm k 0 [mkMessage user (MText query)] w w1 t1 exit /\
    log_of (generate_response self query history tools tm k w) = t1 ++ t2 /\
    tool_calls t2 = [] /\
    (forall p, In p (llm_requests t2) ->
       api_tools p = None /\ api_tool_choice p = None).
Proof.
  intros sys.
  destruct (generate_response_runs self query history tools tm k w)
    as (w1 & t1 & exit & _ & Hrun & Hgen).
  fold sys in Hrun, Hgen. rewrite Hgen.
  destruct exit as [ms' rc' result|ms' rc'].
  - exists w1, t1, (Returned ms' rc' result), []. rewrite app_nil_r.
    split; [assumption|]. split; [reflexivity|]. split; [reflexivity|].
    intros p [].
  - destruct (client self w1 (base_api_params self sys ms')) as [w2 r].
    exists w1, t1, (Exhausted ms' rc'), [LLMCall (base_api_params self sys ms') r].
    split; [assumption|]. split; [reflexivity|]. split; [reflexivity|].
    intros p [<-|[]]. now split.
Qed.

(** C10 -- A run given the empty catalog is the run given no catalog, for
    any executor: same final world, same log (hence the same requests, in
    the same order, with the same outcomes), same result; and no request of
    it carries the catalog or the tool-choice directive. *)
Theorem empty_catalog_as_no_catalog (World : Type) (self : AIGenerator World)
  (query : string) (history : option string)
  (tm : option (ToolManager World)) (k : Z) (w : World) :
  generate_response self query history (Some []) tm k w
  = generate_response self query history None tm k w /\
  (forall p,
      In p (llm_requests (log_of (generate_response self query history (Some []) tm k w))) ->
      api_tools p = None /\ api_tool_choice p = None).
Proof.
  split.
  - unfold generate_response, generate_response_fuel.
    apply run_from_same_requests. reflexivity.
  - intros p Hin.
    destruct (generate_response_log self query history (Some []) tm k w)
      as (w1 & t1 & exit & t2 & Hrun & Hlog & _ & Hfinal).
    rewrite Hlog, llm_requests_app in Hin. apply in_app_or in Hin as [Hin|Hin].
    + eapply loop_run_no_offer; [|eassumption|eassumption]. reflexivity.
    + now apply Hfinal.
Qed.

(** ** A request of the loop, seen from the whole run *)

(** A request of a run that was sent before [k] requests were sent is a
    request of the loop: the log from it on is a run of the loop from some
    loop head, followed by what follows the loop. *)
Lemma generate_response_at_call (World : Type) (self : AIGenerator World)
  (query : string) (history : option string) (tools : option (list Tool))
  (tm : option (ToolManager World)) (k : Z) (w w' : World)
  (t t1 t2 : list Event) (p : ApiParams) (o : Exc Response)
  (out : option (list Message * Exc string)) :
  let sys := build_system_content self history in
  generate_response self query history tools tm k w = (w', t, out) ->
  t = t1 ++ LLMCall p o :: t2 ->
  Z.of_nat (count_llm_calls t1) < k ->
  exists rc ms w0 w1 t2l exit,
    rc = Z.of_nat (count_llm_calls t1) /\
    p = loop_api_params self sys tools tm ms /\
    loop_run self sys tools tm k rc ms w0 w1 (LLMCall p o :: t2l) exit /\
    match exit with
    | Returned ms' _ result => t2 = t2l /\ out = Some (ms', result)
    | Exhausted ms' _ =>
        exists r,
          t2 = t2l ++ [LLMCall (base_api_params self sys ms') r] /\
          out = Some (ms', Ok (final_text r))
    end.
Proof.
  intros sys Hgen Ht Hidx.
  destruct (generate_response_runs self query history tools tm k w)
    as (w1 & t1l & exit & _ & Hrun & Hgen').
  fold sys in Hrun, Hgen'. rewrite Hgen' in Hgen. clear Hgen'.
  destruct exit as [ms' rc' result|ms' rc'].
  - injection Hgen as <- <- <-. subst t1l.
    destruct (loop_run_at_call Hrun _ _ _ _ eq_refl)
      as (rc1 & ms1 & w0 & Hrc & _ & _ & Hp & Hsuffix).
    exists rc1, ms1, w0, w1, t2, (Returned ms' rc' result).
    split; [lia|]. now repeat split.
  - destruct (client self w1 (base_api_params self sys ms')) as [w2 r].
    injection Hgen as <- <- <-.
    destruct (loop_run_budget Hrun) as [_ [Hcount _]].
    apply app_eq_app in Ht as [l [[E1 E2]|[E1 E2]]].
    + destruct l as [|x l].
      * rewrite app_nil_r in E1. subst t1l. lia.
      * injection E2 as <- E2. subst t1l.
        destruct (loop_run_at_call Hrun _ _ _ _ eq_refl)
          as (rc1 & ms1 & w0 & Hrc & _ & _ & Hp & Hsuffix).
        exists rc1, ms1, w0, w1, l, (Exhausted ms' rc').
        split; [lia|]. split; [assumption|]. split; [assumption|].
        exists r. now split.
    + subst t1. rewrite count_llm_calls_app in Hidx. lia.
Qed.

Section ToolRound.

Variable World : Type.
Variable self : AIGenerator World.
Variable system_content : string.
Variable tools : option (list Tool).
Variable tmgr : ToolManager World.
Variable max_rounds : Z.

Local Abbreviation runs :=
  (loop_run self system_content tools (Some tmgr) max_rounds).

(** At a loop head, with an executor, a response that signals tool use has
    all its tool-use blocks executed in order, whatever the executions give,
    and the loop goes on with the two messages of the round appended. *)
Lemma loop_run_first_round rc ms w w' p response blocks t2 exit :
  runs rc ms w w' (LLMCall p (Ok response) :: t2) exit ->
  stop_reason response = "tool_use" ->
  content response = Ok blocks ->
  tool_uses blocks <> [] ->
  exists w1 w2 os t3,
    tool_outcomes tmgr (tool_uses blocks) w1 = (w2, os) /\
    t2 = round_events (tool_uses blocks) os ++ t3 /\
    runs (rc + 1)
      (ms ++ [mkMessage assistant (MResponse (Ok blocks));
              mkMessage user (MResults (round_results (tool_uses blocks) os))])
      w2 w' t3 exit.
Proof.
  intros H Hstop Hcont Hu.
  inversion H; subst;
    try match goal with
        | Hp : py_and _ _ = _ |- _ => rewrite Hstop in Hp; cbn in Hp
        end;
    try congruence.
  match goal with Hp : Some _ = Some _ |- _ => injection Hp as <- end.
  match goal with
  | Hc1 : content response = Ok ?b1 |- _ =>
      assert (b1 = blocks) by congruence; subst b1
  end.
  rewrite Hcont in *. eauto 10.
Qed.



End ToolRound.

Lemma round_results_nth (uses : list ContentBlock) (os : list (Exc string))
  (i : nat) (b : ContentBlock) (o : Exc string) :
  nth_error uses i = Some b ->
  nth_error os i = Some o ->
  nth_error (round_results uses os) i = Some (tool_result_of b o).
Proof.
  unfold round_results. revert os i.
  induction uses as [|b0 uses IH]; intros [|o0 os] [|i] Hb Ho;
    cbn in *; try discriminate.
  - congruence.
  - now apply IH.
Qed.

(** ** Tool errors *)



(** ** One of the catalog and the executor *)

(** C2, as stated, fails: with an executor and no catalog, a response that
    signals tool use has its blocks executed. *)
Lemma executor_without_catalog_executes :
  exactly_one_present (@None (list Tool)) (Some Scenario.scripted_tool_manager) = true /\
  ~ treated_as_no_tools Scenario.generator "Find Python basics" None
      None (Some Scenario.scripted_tool_manager) 2 Scenario.always_tools.
Proof.
  split; [reflexivity|]. intros (_ & _ & H). vm_compute in H. discriminate H.
Qed.

(** C2, amended -- Without an executor a run is as if neither the catalog
    nor the executor were given, whatever the catalog: it is the run given
    neither, no request carries a tool key and no tool is executed.  With an
    executor and no catalog, no request carries a tool key either, but a
    response of the loop that signals tool use still has every tool-use
    block executed, in order. *)
Theorem one_sided_tools (World : Type) (self : AIGenerator World)
  (query : string) (history : option string) (k : Z) (w : World) :
  (forall tools, treated_as_no_tools self query history tools None k w) /\
  (forall tmgr,
      (forall p,
          In p (llm_requests
                  (log_of (generate_response self query history None (Some tmgr) k w))) ->
          api_tools p = None /\ api_tool_choice p = None) /\
      (forall t1 t2 p response blocks,
          log_of (generate_response self query history None (Some tmgr) k w)
          = t1 ++ LLMCall p (Ok response) :: t2 ->
          Z.of_nat (count_llm_calls t1) < k ->
          stop_reason response = "tool_use" ->
          content response = Ok blocks ->
          exists os t3,
            List.length os = List.length (tool_uses blocks) /\
            t2 = round_events (tool_uses blocks) os ++ t3)).
Proof.
  split.
  - intros tools.
    assert (Heq : generate_response self query history tools None k w
                  = generate_response self query history None None k w).
    { unfold generate_response, generate_response_fuel.
      apply run_from_same_requests. intros ms. unfold loop_api_params.
      now rewrite andb_false_r. }
    unfold treated_as_no_tools. rewrite Heq. split; [reflexivity|].
    destruct (generate_response_log self query history None None k w)
      as (w1 & t1 & exit & t2 & Hrun & Hlog & Htools & Hfinal).
    rewrite Hlog. split.
    + intros p Hin. rewrite llm_requests_app in Hin.
      apply in_app_or in Hin as [Hin|Hin]; [|now apply Hfinal].
      eapply loop_run_no_offer; [|eassumption|eassumption]. reflexivity.
    + rewrite tool_calls_app, Htools, app_nil_r.
      eapply loop_run_no_executor. eassumption.
  - intros tmgr. split.
    + intros p Hin.
      destruct (generate_response_log self query history None (Some tmgr) k w)
        as (w1 & t1 & exit & t2 & Hrun & Hlog & _ & Hfinal).
      rewrite Hlog, llm_requests_app in Hin.
      apply in_app_or in Hin as [Hin|Hin]; [|now apply Hfinal].
      eapply loop_run_no_offer; [|eassumption|eassumption]. reflexivity.
    + intros t1 t2 p response blocks Hlog Hidx Hstop Hcont.
      destruct (tool_uses blocks) as [|b uses] eqn:Hu.
      { exists [], t2. split; reflexivity. }
      destruct (generate_response self query history None (Some tmgr) k w)
        as [[w' t] out] eqn:Hgen.
      cbn in Hlog.
      destruct (@generate_response_at_call World self query history None (Some tmgr)
                  k w w' t t1 t2 p (Ok response) out Hgen Hlog Hidx)
        as (rc & ms & w0 & w1 & t2l & exit & _ & Hp & Hrun & Hexit).
      assert (Hne : tool_uses blocks <> []) by (rewrite Hu; discriminate).
      destruct (loop_run_first_round Hrun Hstop Hcont Hne)
        as (w1' & w2 & os & t3 & Ho & -> & Hnext).
      pose proof (tool_outcomes_length tmgr (tool_uses blocks) w1') as Hlen.
      rewrite Ho in Hlen. cbn [snd] in Hlen. rewrite <- Hu.
      exists os. destruct exit as [ms' rc' result|ms' rc'].
      * destruct Hexit as [-> _]. exists t3. now split.
      * destruct Hexit as (r & -> & _). eexists. split; [assumption|].
        now rewrite <- app_assoc.
Qed.

(** ** The shape of the conversation *)

Lemma prefix_of_refl {A : Type} (l : list A) : prefix_of l l.
Proof. exists []. now rewrite app_nil_r. Qed.

Lemma prefix_of_app {A : Type} (l rest : list A) : prefix_of l (l ++ rest).
Proof. now exists rest. Qed.

Lemma prefix_of_trans {A : Type} (l1 l2 l3 : list A) :
  prefix_of l1 l2 -> prefix_of l2 l3 -> prefix_of l1 l3.
Proof. intros [r1 ->] [r2 ->]. exists (r1 ++ r2). now rewrite app_assoc. Qed.

Lemma nth_error_snoc_cases {A : Type} (l : list A) (x y : A) (i : nat) :
  nth_error (l ++ [x]) i = Some y ->
  ((i < List.length l)%nat /\ nth_error l i = Some y)
  \/ (i = List.length l /\ y = x).
Proof.
  intros H. destruct (Nat.lt_ge_cases i (List.length l)) as [Hlt|Hge].
  - left. split; [assumption|]. now rewrite nth_error_app1 in H.
  - right. rewrite nth_error_app2 in H by assumption.
    destruct (i - List.length l)%nat as [|[|d]] eqn:Hd; cbn in H; try discriminate.
    split; [lia|congruence].
Qed.

Lemma tool_results_message_inv (u : Message) :
  is_tool_results_message u = true ->
  exists r rs, u = mkMessage user (MResults (r :: rs)).
Proof.
  destruct u as [[|] [text|raw|[|r rs]]]; cbn; try discriminate.
  intros _. now exists r, rs.
Qed.

Lemma rounds_shape_nil_inv (rounds : list Message) :
  rounds_shape 0 rounds = true -> rounds = [].
Proof. destruct rounds; [reflexivity|discriminate]. Qed.

Lemma rounds_shape_succ_inv (n : nat) (rounds : list Message) :
  rounds_shape (S n) rounds = true ->
  exists a u rest,
    rounds = a :: u :: rest /\
    is_assistant_message a = true /\
    is_tool_results_message u = true /\
    rounds_shape n rest = true.
Proof.
  destruct rounds as [|a [|u rest]]; cbn [rounds_shape]; try discriminate.
  intros H. apply andb_prop in H as [H Hrest]. apply andb_prop in H as [Ha Hu].
  now exists a, u, rest.
Qed.

Lemma rounds_shape_snoc (n : nat) :
  forall (rounds : list Message) (a u : Message),
    rounds_shape n rounds = true ->
    is_assistant_message a = true ->
    is_tool_results_message u = true ->
    rounds_shape (S n) (rounds ++ [a; u]) = true.
Proof.
  induction n as [|n IH]; intros rounds a u H Ha Hu.
  - apply rounds_shape_nil_inv in H as ->. cbn. now rewrite Ha, Hu.
  - apply rounds_shape_succ_inv in H as (a0 & u0 & rest & -> & Ha0 & Hu0 & Hrest).
    change ((a0 :: u0 :: rest) ++ [a; u]) with (a0 :: u0 :: (rest ++ [a; u])).
    cbn [rounds_shape]. rewrite Ha0, Hu0. cbn [andb]. now apply IH.
Qed.

Lemma assistant_message_role (a : Message) :
  is_assistant_message a = true -> role a = assistant.
Proof. destruct a as [[|] c]; [discriminate|reflexivity]. Qed.

Lemma tool_results_message_role (u : Message) :
  is_tool_results_message u = true -> role u = user.
Proof. destruct u as [[|] c]; [reflexivity|discriminate]. Qed.

(** Rounds behind a user message alternate, also with one more assistant
    message at the end. *)
Lemma alternates_rounds (n : nat) :
  forall (rounds : list Message) (m : Message) (tail : list Message),
    role m = user ->
    rounds_shape n rounds = true ->
    (tail = [] \/ exists a, tail = [a] /\ role a = assistant) ->
    alternates (m :: rounds ++ tail) = true.
Proof.
  induction n as [|n IH]; intros rounds m tail Hm H Htail.
  - apply rounds_shape_nil_inv in H as ->. cbn [app].
    destruct Htail as [->|(a & -> & Ha)]; cbn; [reflexivity|].
    now rewrite Hm, Ha.
  - apply rounds_shape_succ_inv in H as (a & u & rest & -> & Ha & Hu & Hrest).
    change (m :: (a :: u :: rest) ++ tail) with (m :: a :: u :: (rest ++ tail)).
    pose proof (IH rest u tail (tool_results_message_role _ Hu) Hrest Htail) as Halt.
    cbn [alternates] in *.
    rewrite Hm, (assistant_message_role _ Ha), (tool_results_message_role _ Hu).
    cbn [role_eqb negb andb]. rewrite (tool_results_message_role _ Hu) in Halt.
    exact Halt.
Qed.

Lemma rounds_shape_last (n : nat) :
  forall rounds,
    rounds_shape (S n) rounds = true ->
    exists front r rs, rounds = front ++ [mkMessage user (MResults (r :: rs))].
Proof.
  induction n as [|n IH]; intros rounds H;
    apply rounds_shape_succ_inv in H as (a & u & rest & -> & Ha & Hu & Hrest).
  - apply rounds_shape_nil_inv in Hrest as ->.
    apply tool_results_message_inv in Hu as (r & rs & ->).
    now exists [a], r, rs.
  - destruct (IH rest Hrest) as (front & r & rs & ->).
    now exists (a :: u :: front), r, rs.
Qed.

Lemma conversation_after_alternates (query : string) (n : nat) (ms : list Message) :
  conversation_after query n ms -> alternates ms = true.
Proof.
  intros (rounds & -> & H).
  rewrite <- (app_nil_r rounds). eapply alternates_rounds; eauto.
Qed.

Lemma conversation_after_assistant (query : string) (n : nat) (ms : list Message)
  (raw : Content) :
  conversation_after query n ms ->
  alternates (ms ++ [mkMessage assistant (MResponse raw)]) = true.
Proof.
  intros (rounds & -> & H). cbn [app].
  eapply alternates_rounds; [reflexivity|eassumption|].
  right. eexists. split; reflexivity.
Qed.

Lemma conversation_after_ends (query : string) (n : nat) (ms : list Message) :
  conversation_after query n ms -> ends_as_after query n ms.
Proof.
  intros (rounds & -> & H). destruct n as [|n]; cbn.
  - now apply rounds_shape_nil_inv in H as ->.
  - destruct (rounds_shape_last _ _ H) as (front & r & rs & ->).
    now exists (mkMessage user (MText query) :: front), r, rs.
Qed.

Lemma conversation_after_round (query : string) (n : nat) (ms : list Message)
  (raw : Content) (r : ToolResult) (rs : list ToolResult) :
  conversation_after query n ms ->
  conversation_after query (S n)
    (ms ++ [mkMessage assistant (MResponse raw); mkMessage user (MResults (r :: rs))]).
Proof.
  intros (rounds & -> & H). eexists. split; [reflexivity|].
  now apply rounds_shape_snoc.
Qed.

Lemma round_results_cons (uses : list ContentBlock) (os : list (Exc string)) :
  uses <> [] ->
  List.length os = List.length uses ->
  exists r rs, round_results uses os = r :: rs.
Proof.
  destruct uses as [|b uses]; [congruence|]. intros _.
  destruct os as [|o os]; [discriminate|]. intros _.
  unfold round_results. cbn. eauto.
Qed.

Section History.

Variable World : Type.
Variable self : AIGenerator World.
Variable system_content : string.
Variable tools : option (list Tool).
Variable tool_manager : option (ToolManager World).
Variable max_rounds : Z.
Variable query : string.

(** From a loop head reached after [n] completed rounds: the request
    number [i] of the rest of the loop carries the conversation after
    [n + i] rounds, every request extends the ones before it, and the
    messages the loop leaves behind extend them all. *)
Lemma loop_run_history rc ms w w' t exit :
  loop_run self system_content tools tool_manager max_rounds rc ms w w' t exit ->
  forall n, conversation_after query n ms ->
    (forall i p, nth_error (llm_requests t) i = Some p ->
       conversation_after query (n + i) (api_messages p) /\
       prefix_of ms (api_messages p) /\
       prefix_of (api_messages p) (exit_messages exit)) /\
    (forall i j p q, (i <= j)%nat ->
       nth_error (llm_requests t) i = Some p ->
       nth_error (llm_requests t) j = Some q ->
       prefix_of (api_messages p) (api_messages q)) /\
    alternates (exit_messages exit) = true /\
    prefix_of ms (exit_messages exit) /\
    match exit with
    | Exhausted ms' _ =>
        conversation_after query (n + List.length (llm_requests t)) ms'
    | Returned _ _ _ => True
    end.
Proof.
  assert (Hsingle : forall ms0 o n ms1,
             conversation_after query n ms0 ->
             prefix_of ms0 ms1 ->
             (forall i p,
                 nth_error
                   (llm_requests
                      [LLMCall (loop_api_params self system_content tools tool_manager ms0) o])
                   i = Some p ->
                 conversation_after query (n + i) (api_messages p) /\
                 prefix_of ms0 (api_messages p) /\
                 prefix_of (api_messages p) ms1) /\
             (forall i j p q, (i <= j)%nat ->
                 nth_error
                   (llm_requests
                      [LLMCall (loop_api_params self system_content tools tool_manager ms0) o])
                   i = Some p ->
                 nth_error
                   (llm_requests
                      [LLMCall (loop_api_params self system_content tools tool_manager ms0) o])
                   j = Some q ->
                 prefix_of (api_messages p) (api_messages q))).
  { intros ms0 o n ms1 Hconv Hpre. split.
    - intros [|[|i]] p Hp; cbn in Hp; try discriminate.
      injection Hp as <-. rewrite loop_api_params_messages, Nat.add_0_r.
      split; [assumption|]. split; [apply prefix_of_refl|assumption].
    - intros [|[|i]] [|[|j]] p q _ Hp Hq; cbn in Hp, Hq; try discriminate.
      injection Hp as <-. injection Hq as <-. apply prefix_of_refl. }
  induction 1 as
    [ rc ms w Hge | rc ms w w1 e Hlt Hc | rc ms w w1 response Hlt Hc Hp
    | rc ms w w1 response tm e Hlt Hc Hp Hcont
    | rc ms w w1 response tm blocks Hlt Hc Hp Hcont Hu
    | rc ms w w1 response tm blocks w2 os w3 t exit Hlt Hc Hp Hcont Hu Ho Hrun IH ];
    intros n Hconv; cbn [exit_messages].
  - split; [intros [|i] p Hp; discriminate Hp|].
    split; [intros [|i] j p q _ Hp; discriminate Hp|].
    split; [eapply conversation_after_alternates; eassumption|].
    split; [apply prefix_of_refl|]. cbn. now rewrite Nat.add_0_r.
  - destruct (Hsingle ms (Raise e) n ms Hconv (prefix_of_refl ms)) as [H1 H2].
    split; [exact H1|]. split; [exact H2|]. split; [|split; [|exact I]].
    + eapply conversation_after_alternates; eassumption.
    + apply prefix_of_refl.
  - destruct (Hsingle ms (Ok response) n ms Hconv (prefix_of_refl ms)) as [H1 H2].
    split; [exact H1|]. split; [exact H2|]. split; [|split; [|exact I]].
    + eapply conversation_after_alternates; eassumption.
    + apply prefix_of_refl.
  - destruct (Hsingle ms (Ok response) n _ Hconv
                (prefix_of_app ms [mkMessage assistant (MResponse (content response))]))
      as [H1 H2].
    split; [exact H1|]. split; [exact H2|]. split; [|split; [|exact I]].
    + eapply conversation_after_assistant; eassumption.
    + apply prefix_of_app.
  - destruct (Hsingle ms (Ok response) n _ Hconv
                (prefix_of_app ms [mkMessage assistant (MResponse (content response))]))
      as [H1 H2].
    split; [exact H1|]. split; [exact H2|]. split; [|split; [|exact I]].
    + eapply conversation_after_assistant; eassumption.
    + apply prefix_of_app.
  - pose proof (tool_outcomes_length tm (tool_uses blocks) w1) as Hlen.
    rewrite Ho in Hlen. cbn [snd] in Hlen.
    destruct (@round_results_cons (tool_uses blocks) os Hu Hlen) as (r & rs & Hres).
    rewrite Hres in *.
    pose proof (conversation_after_round (content response) r rs Hconv) as Hconv'.
    destruct (IH (S n) Hconv') as (IH1 & IH2 & IH3 & IH4 & IH5).
    assert (Hstep : prefix_of ms
                      (ms ++ [mkMessage assistant (MResponse (content response));
                              mkMessage user (MResults (r :: rs))]))
      by apply prefix_of_app.
    cbn [llm_requests]. rewrite llm_requests_app, round_events_requests. cbn [app].
    split; [|split; [|split; [|split]]].
    + intros [|i] p Hi; cbn in Hi.
      * injection Hi as <-. rewrite loop_api_params_messages, Nat.add_0_r.
        split; [assumption|]. split; [apply prefix_of_refl|].
        eapply prefix_of_trans; eassumption.
      * destruct (IH1 i p Hi) as (Ha & Hb & Hc').
        rewrite Nat.add_succ_r. split; [assumption|].
        split; [eapply prefix_of_trans; eassumption|assumption].
    + intros [|i] [|j] p q Hle Hi Hj; cbn in Hi, Hj.
      * injection Hi as <-. injection Hj as <-. apply prefix_of_refl.
      * injection Hi as <-. rewrite loop_api_params_messages.
        destruct (IH1 j q Hj) as (_ & Hb & _).
        eapply prefix_of_trans; eassumption.
      * lia.
      * eapply IH2; [|eassumption|eassumption]. lia.
    + assumption.
    + eapply prefix_of_trans; eassumption.
    + destruct exit as [ms' rc' result|ms' rc']; [exact I|].
      cbn [List.length]. now rewrite Nat.add_succ_r.
Qed.

End History.

(** C4 -- In every run, the request number [i] (sent after [i] completed
    rounds) carries a conversation that starts with the user message
    holding the query verbatim, followed by [i] pairs of an assistant
    message and a user message of tool results; its roles alternate; it ends
    with the initial message when [i = 0] and with a user message of tool
    results otherwise; and every request extends the requests before it, as
    the final message list does: messages are appended, never reordered or
    dropped.  The roles of the final message list alternate too. *)
Theorem conversation_invariant (World : Type) (self : AIGenerator World)
  (query : string) (history : option string) (tools : option (list Tool))
  (tm : option (ToolManager World)) (k : Z) (w w' : World) (t : list Event)
  (messages : list Message) (result : Exc string) :
  generate_response self query history tools tm k w = (w', t, Some (messages, result)) ->
  (forall i p, nth_error (llm_requests t) i = Some p ->
     conversation_after query i (api_messages p) /\
     alternates (api_messages p) = true /\
     ends_as_after query i (api_messages p) /\
     prefix_of (api_messages p) messages) /\
  (forall i j p q, (i <= j)%nat ->
     nth_error (llm_requests t) i = Some p ->
     nth_error (llm_requests t) j = Some q ->
     prefix_of (api_messages p) (api_messages q)) /\
  alternates messages = true /\
  prefix_of [mkMessage user (MText query)] messages.
Proof.
  intros Hgen.
  destruct (generate_response_runs self query history tools tm k w)
    as (w1 & t1 & exit & _ & Hrun & Hgen').
  rewrite Hgen' in Hgen. clear Hgen'.
  assert (Hconv0 : conversation_after query 0 [mkMessage user (MText query)])
    by (exists []; now split).
  destruct (loop_run_history Hrun Hconv0) as (H1 & H2 & H3 & H4 & H5).
  assert (Hfull : forall n ms, conversation_after query n ms ->
             conversation_after query n ms /\ alternates ms = true /\
             ends_as_after query n ms).
  { intros n ms H. split; [assumption|].
    split; [eapply conversation_after_alternates|apply conversation_after_ends];
      eassumption. }
  destruct exit as [ms' rc' result'|ms' rc']; cbn [exit_messages] in *.
  - injection Hgen as <- <- <- <-.
    split; [|split; [|split]]; try assumption.
    intros i p Hp. destruct (H1 i p Hp) as (Ha & _ & Hc).
    destruct (Hfull _ _ Ha) as (? & ? & ?). now repeat split.
  - destruct (client self w1 (base_api_params self (build_system_content self history) ms'))
      as [w2 r].
    injection Hgen as <- <- <- <-.
    rewrite llm_requests_app. cbn [llm_requests].
    split; [|split; [|split]]; try assumption.
    + intros i p Hp. apply nth_error_snoc_cases in Hp as [[_ Hp]|[-> ->]].
      * destruct (H1 i p Hp) as (Ha & _ & Hc).
        destruct (Hfull _ _ Ha) as (? & ? & ?). now repeat split.
      * destruct (Hfull _ _ H5) as (? & ? & ?).
        repeat split; try assumption. apply prefix_of_refl.
    + intros i j p q Hle Hp Hq.
      apply nth_error_snoc_cases in Hp as [[Hi Hp]|[-> ->]];
        apply nth_error_snoc_cases in Hq as [[Hj Hq]|[-> ->]].
      * exact (H2 i j p q Hle Hp Hq).
      * now destruct (H1 i p Hp) as (_ & _ & Hc).
      * lia.
      * apply prefix_of_refl.
Qed.

(* ================================================================== *)
(** * The properties at work on the scripted collaborators *)

Import Scenario.

(** The budget on the script that asks for a tool at every call. *)
Lemma round_budget_respected_witness :
  0 <= 2 /\
  exists w' t messages result,
    generate_response generator query None (Some sample_tools)
      (Some scripted_tool_manager) 2 always_tools
    = (w', t, Some (messages, result)) /\
    (forall fuel, (Z.to_nat 2 <= fuel)%nat ->
       generate_response_fuel fuel generator query None (Some sample_tools)
         (Some scripted_tool_manager) 2 always_tools
       = (w', t, Some (messages, result))) /\
    Z.of_nat (count_tool_rounds t) <= 2 /\
    Z.of_nat (count_llm_calls t) <= 2 + 1.
Proof.
  split; [lia|]. apply round_budget_respected. lia.
Defined.

(** The second request of the loop fails. *)
Lemma transport_error_in_loop_witness :
  generate_response generator query None (Some sample_tools)
    (Some scripted_tool_manager) 2 second_call_fails
  = (used_up,
     first_round_log
       ++ [LLMCall (tool_request after_first_round) (Raise "API connection failed")],
     Some (after_first_round,
           Ok "Error generating response: API connection failed")) /\
  Z.of_nat (count_llm_calls first_round_log) < 2 /\
  @nil Event = [] /\
  Some (after_first_round, Ok "Error generating response: API connection failed")
  = Some (api_messages (tool_request after_first_round),
          Ok ("Error generating response: " ++ "API connection failed")%string).
Proof.
  split; [reflexivity|]. split; [reflexivity|].
  apply (@transport_error_in_loop Script generator query None (Some sample_tools)
           (Some scripted_tool_manager) 2 second_call_fails used_up
           (first_round_log
              ++ [LLMCall (tool_request after_first_round)
                    (Raise "API connection failed")])
           first_round_log []); reflexivity.
Defined.

(** The conversation of the script that asks for a tool at every call. *)
Lemma conversation_invariant_witness :
  generate_response generator query None (Some sample_tools)
    (Some scripted_tool_manager) 2 always_tools
  = (used_up, first_round_log ++ second_round_log ++ [final_event],
     Some (after_second_round, Ok "Final answer after max rounds")) /\
  (forall i p,
      nth_error
        (llm_requests (first_round_log ++ second_round_log ++ [final_event])) i
      = Some p ->
      conversation_after query i (api_messages p) /\
      alternates (api_messages p) = true /\
      ends_as_after query i (api_messages p) /\
      prefix_of (api_messages p) after_second_round) /\
  alternates after_second_round = true.
Proof.
  split; [reflexivity|].
  destruct (@conversation_invariant Script generator query None (Some sample_tools)
              (Some scripted_tool_manager) 2 always_tools used_up
              (first_round_log ++ second_round_log ++ [final_event])
              after_second_round (Ok "Final answer after max rounds") eq_refl)
    as (H1 & _ & H3 & _).
  split; assumption.
Defined.

(** Two rounds use up the budget; the third request carries no tool key. *)
Lemma final_request_without_tools_witness :
  while_loop generator (build_system_content generator None) (Some sample_tools)
    (Some scripted_tool_manager) 2 (Z.to_nat 2) 0 [mkMessage user (MText query)]
    always_tools
  = (before_final_request, first_round_log ++ second_round_log,
     Some (Exhausted after_second_round 2)) /\
  client generator before_final_request
    (mkApiParams (model generator) 0 800 after_second_round
       (build_system_content generator None) None None)
  = (used_up, Ok (text_response "Final answer after max rounds")) /\
  generate_response generator query None (Some sample_tools)
    (Some scripted_tool_manager) 2 always_tools
  = (used_up, (first_round_log ++ second_round_log) ++ [final_event],
     Some (after_second_round, Ok "Final answer after max rounds")).
Proof.
  split; [reflexivity|]. split; [reflexivity|].
  destruct (final_request_without_tools generator query None (Some sample_tools)
              (Some scripted_tool_manager)) as [H _].
  destruct (H 2 always_tools before_final_request used_up
              (first_round_log ++ second_round_log) after_second_round 2
              (Ok (text_response "Final answer after max rounds"))
              eq_refl eq_refl) as (_ & _ & Hrun).
  exact Hrun.
Defined.


(** Two tool-use blocks around a text block. *)
Lemma tool_results_follow_tool_uses_witness :
  tool_uses [search_block; TextBlock "and then"; outline_block] <> [] /\
  exists w' t results,
    _execute_tool_round
      (mkResponse "tool_use" (Ok [search_block; TextBlock "and then"; outline_block]))
      initial_messages scripted_tool_manager always_tools
    = (w', t,
       (initial_messages
          ++ [mkMessage assistant
                (MResponse (Ok [search_block; TextBlock "and then"; outline_block]));
              mkMessage user (MResults results)],
        Ok true)) /\
    List.length results
    = List.length (tool_uses [search_block; TextBlock "and then"; outline_block]) /\
    map tool_use_id results
    = map block_id (tool_uses [search_block; TextBlock "and then"; outline_block]).
Proof.
  split; [discriminate|]. apply tool_results_follow_tool_uses. discriminate.
Defined.

(** A text block behind a tool-use block, and a response without text. *)
Lemma text_extraction_witness :
  (forall x, In x [search_block] -> block_text x = None) /\
  block_text (TextBlock "Here are the Python basics") = Some "Here are the Python basics" /\
  _extract_text_from_response
    (mkResponse "end_turn"
       (Ok ([search_block] ++ TextBlock "Here are the Python basics"
              :: [TextBlock "and more"])))
  = "Here are the Python basics" /\
  _extract_text_from_response (mkResponse "end_turn" (Ok [search_block]))
  = "No text content in response".
Proof.
  assert (Hnone : forall x, In x [search_block] -> block_text x = None)
    by (intros x [<-|[]]; reflexivity).
  destruct (text_extraction "end_turn") as (H1 & H2 & _).
  split; [exact Hnone|]. split; [reflexivity|]. split.
  - apply H1; [exact Hnone|reflexivity].
  - apply H2. exact Hnone.
Defined.


(** An executor without a catalog, and a catalog without an executor. *)
Lemma one_sided_tools_witness :
  log_of (generate_response generator query None None
            (Some scripted_tool_manager) 2 always_tools)
  = [] ++ LLMCall (plain_request initial_messages) (Ok (tool_response [search_block]))
       :: no_catalog_rest /\
  Z.of_nat (count_llm_calls []) < 2 /\
  treated_as_no_tools generator query None (Some sample_tools) None 2 always_tools /\
  exists os t3,
    List.length os = List.length (tool_uses [search_block]) /\
    no_catalog_rest = round_events (tool_uses [search_block]) os ++ t3.
Proof.
  split; [reflexivity|]. split; [reflexivity|].
  destruct (one_sided_tools generator query None 2 always_tools) as [H1 H2].
  split; [apply H1|].
  destruct (H2 scripted_tool_manager) as [_ H3].
  apply (H3 [] no_catalog_rest (plain_request initial_messages)
            (tool_response [search_block]) [search_block]);
    reflexivity.
Defined.

(** The first request of a run given the empty catalog. *)
Lemma empty_catalog_as_no_catalog_witness :
  In (plain_request initial_messages)
    (llm_requests
       (log_of (generate_response generator query None (Some [])
                  (Some scripted_tool_manager) 2 always_tools))) /\
  api_tools (plain_request initial_messages) = None /\
  api_tool_choice (plain_request initial_messages) = None.
Proof.
  assert (Hin : In (plain_request initial_messages)
                  (llm_requests
                     (log_of (generate_response generator query None (Some [])
                                (Some scripted_tool_manager) 2 always_tools))))
    by (left; reflexivity).
  split; [exact Hin|].
  exact (proj2 (empty_catalog_as_no_catalog generator query None
                  (Some scripted_tool_manager) 2 always_tools) _ Hin).
Defined.

(* ================================================================== *)
(** * Further properties of [generate_response] *)

(** ** The requests of a run *)

Section Requests.

Variable World : Type.
Variable self : AIGenerator World.
Variable system_content : string.
Variable tools : option (list Tool).
Variable tool_manager : option (ToolManager World).
Variable max_rounds : Z.

(** A request of the loop is rebuilt from the messages it carries. *)
Lemma loop_run_requests rc ms w w' t exit :
  loop_run self system_content tools tool_manager max_rounds rc ms w w' t exit ->
  forall p, In p (llm_requests t) ->
    p = loop_api_params self system_content tools tool_manager (api_messages p).
Proof.
  induction 1 as
    [ rc ms w Hge | rc ms w w1 e Hlt Hc | rc ms w w1 response Hlt Hc Hp
    | rc ms w w1 response tm e Hlt Hc Hp Hcont
    | rc ms w w1 response tm blocks Hlt Hc Hp Hcont Hu
    | rc ms w w1 response tm blocks w2 os w3 t exit Hlt Hc Hp Hcont Hu Ho Hrun IH ];
    intros p Hin; cbn [llm_requests] in Hin;
    try (destruct Hin as [<-|[]]; now rewrite loop_api_params_messages).
  - destruct Hin.
  - rewrite llm_requests_app, round_events_requests in Hin.
    destruct Hin as [<-|Hin]; [now rewrite loop_api_params_messages|now apply IH].
Qed.

Lemma loop_api_params_request_at (i : nat) (ms : list Message) :
  Z.of_nat i < max_rounds ->
  loop_api_params self system_content tools tool_manager ms
  = request_at (model self) system_content tools (truthy_obj tool_manager)
      max_rounds i ms.
Proof.
  intros Hi. unfold loop_api_params, request_at, base_api_params.
  destruct (Z.ltb_spec (Z.of_nat i) max_rounds); [reflexivity|lia].
Qed.

End Requests.

(** X1 -- The request at position [i] of a run is determined by [i] and by
    the messages it carries: it holds the model of the generator,
    temperature 0, 800 tokens and the system content of the run; it holds
    the catalog as given and the automatic tool choice when [i] is below the
    budget and both the catalog and the executor are truthy, and neither
    key otherwise. *)
Theorem requests_by_position (World : Type) (self : AIGenerator World)
  (query : string) (history : option string) (tools : option (list Tool))
  (tm : option (ToolManager World)) (k : Z) (w : World) (i : nat) (p : ApiParams) :
  nth_error (llm_requests (log_of (generate_response self query history tools tm k w))) i
  = Some p ->
  p = request_at (model self) (build_system_content self history) tools
        (truthy_obj tm) k i (api_messages p).
Proof.
  intros Hp.
  destruct (generate_response_runs self query history tools tm k w)
    as (w1 & t1 & exit & _ & Hrun & Hgen).
  rewrite Hgen in Hp. clear Hgen.
  destruct (loop_run_budget Hrun) as [Hcount Hexit].
  rewrite count_llm_calls_requests in Hcount.
  assert (Hloop : forall q, nth_error (llm_requests t1) i = Some q ->
             q = request_at (model self) (build_system_content self history) tools
                   (truthy_obj tm) k i (api_messages q)).
  { intros q Hq.
    assert (Hi : (i < List.length (llm_requests t1))%nat)
      by (apply nth_error_Some; congruence).
    rewrite <- loop_api_params_request_at by lia.
    eapply loop_run_requests; [eassumption|]. eapply nth_error_In; eassumption. }
  destruct exit as [ms' rc' result|ms' rc'].
  - now apply Hloop.
  - destruct (client self w1 (base_api_params self (build_system_content self history) ms'))
      as [w2 r].
    cbn [log_of fst snd] in Hp. rewrite llm_requests_app in Hp. cbn [llm_requests] in Hp.
    apply nth_error_snoc_cases in Hp as [[_ Hp]|[-> ->]]; [now apply Hloop|].
    destruct Hexit as [Hcount' _]. rewrite count_llm_calls_requests in Hcount'.
    unfold request_at, base_api_params. cbn [api_messages].
    destruct (Z.ltb_spec (Z.of_nat (List.length (llm_requests t1))) k); [lia|reflexivity].
Qed.

Lemma loop_api_params_system (World : Type) (self : AIGenerator World)
  (system_content : string) (tools : option (list Tool))
  (tm : option (ToolManager World)) (ms : list Message) :
  api_system (loop_api_params self system_content tools tm ms) = system_content.
Proof.
  unfold loop_api_params.
  destruct (truthy_list tools && truthy_obj tm); reflexivity.
Qed.

(** Every request of a run carries the system content built from the
    history. *)
Lemma generate_response_system (World : Type) (self : AIGenerator World)
  (query : string) (history : option string) (tools : option (list Tool))
  (tm : option (ToolManager World)) (k : Z) (w : World) (p : ApiParams) :
  In p (llm_requests (log_of (generate_response self query history tools tm k w))) ->
  api_system p = build_system_content self history.
Proof.
  intros Hin.
  destruct (generate_response_runs self query history tools tm k w)
    as (w1 & t1 & exit & _ & Hrun & Hgen).
  rewrite Hgen in Hin. clear Hgen.
  assert (Hloop : In p (llm_requests t1) ->
                  api_system p = build_system_content self history).
  { intros H. rewrite (loop_run_requests Hrun p H).
    apply loop_api_params_system. }
  destruct exit as [ms' rc' result|ms' rc']; [now apply Hloop|].
  destruct (client self w1 (base_api_params self (build_system_content self history) ms'))
    as [w2 r].
  cbn [log_of fst snd] in Hin. rewrite llm_requests_app in Hin.
  apply in_app_or in Hin as [Hin|[<-|[]]]; [now apply Hloop|reflexivity].
Qed.

(** X2 -- Every request of a run carries the bare system prompt when the
    history is [None] or the empty string, and otherwise the prompt followed
    by a blank line, the line ["Previous conversation:"] and the history. *)
Theorem system_content_of_requests (World : Type) (self : AIGenerator World)
  (query : string) (history : option string) (tools : option (list Tool))
  (tm : option (ToolManager World)) (k : Z) (w : World) (p : ApiParams) :
  In p (llm_requests (log_of (generate_response self query history tools tm k w))) ->
  (history = None \/ history = Some EmptyString -> api_system p = SYSTEM_PROMPT self) /\
  (forall h, history = Some h -> h <> EmptyString ->
     api_system p
     = (SYSTEM_PROMPT self ++ newline ++ newline ++ "Previous conversation:"
          ++ newline ++ h)%string).
Proof.
  intros Hin. rewrite (generate_response_system _ _ _ _ _ _ _ _ Hin). split.
  - intros [->| ->]; reflexivity.
  - intros h -> Hh. destruct h as [|c h]; [congruence|reflexivity].
Qed.

(** ** Responses that end the run *)

(** At a loop head, a response that does not signal tool use, or any
    response when there is no executor, ends the loop with its text. *)
Lemma loop_run_first_answer (World : Type) (self : AIGenerator World)
  (system_content : string) (tools : option (list Tool))
  (tm : option (ToolManager World)) (max_rounds : Z)
  rc ms w w' p response t2 exit :
  loop_run self system_content tools tm max_rounds rc ms w w'
    (LLMCall p (Ok response) :: t2) exit ->
  stop_reason response <> "tool_use" \/ tm = None ->
  t2 = [] /\ exit = Returned ms rc (Ok (_extract_text_from_response response)).
Proof.
  intros H Hwhy.
  assert (Hp : py_and (stop_reason response =? "tool_use")%string tm = None).
  { destruct Hwhy as [Hne| ->].
    - apply String.eqb_neq in Hne. now rewrite Hne.
    - now destruct (stop_reason response =? "tool_use")%string. }
  inversion H; subst; try congruence. now split.
Qed.

(** X3 -- A response of the loop that does not signal tool use (or any
    response of the loop when no executor is given) ends the run: nothing is
    logged after it, so none of its blocks is executed even when they are
    tool-use blocks, the messages are left as the request carried them, and
    the run returns the text extracted from the response. *)
Theorem answer_ends_run (World : Type) (self : AIGenerator World)
  (query : string) (history : option string) (tools : option (list Tool))
  (tm : option (ToolManager World)) (k : Z) (w w' : World)
  (t t1 t2 : list Event) (p : ApiParams) (response : Response)
  (out : option (list Message * Exc string)) :
  generate_response self query history tools tm k w = (w', t, out) ->
  t = t1 ++ LLMCall p (Ok response) :: t2 ->
  Z.of_nat (count_llm_calls t1) < k ->
  stop_reason response <> "tool_use" \/ tm = None ->
  t2 = [] /\
  out = Some (api_messages p, Ok (_extract_text_from_response response)).
Proof.
  intros Hgen Ht Hidx Hwhy.
  destruct (@generate_response_at_call World self query history tools tm
              k w w' t t1 t2 p (Ok response) out Hgen Ht Hidx)
    as (rc & ms & w0 & w1 & t2l & exit & _ & Hp & Hrun & Hexit).
  destruct (loop_run_first_answer Hrun Hwhy) as [-> ->].
  destruct Hexit as [-> ->]. rewrite Hp, loop_api_params_messages. now split.
Qed.

(** X4 -- With a budget of zero or less the run is one request: it carries
    the query alone and no tool key, whatever catalog and executor are
    given, and nothing is executed whatever the response signals; the run
    returns the text extracted from the response, or the final-request error
    string. *)
Theorem nonpositive_budget (World : Type) (self : AIGenerator World)
  (query : string) (history : option string) (tools : option (list Tool))
  (tm : option (ToolManager World)) (k : Z) (w : World) :
  k <= 0 ->
  generate_response self query history tools tm k w
  = let ms0 := [mkMessage user (MText query)] in
    let request :=
      mkApiParams (model self) 0 800 ms0 (build_system_content self history)
        None None in
    let (w', r) := client self w request in
    (w', [LLMCall request r],
     Some (ms0,
           Ok match r with
              | Ok final_response => _extract_text_from_response final_response
              | Raise e => ("Error generating final response: " ++ e)%string
              end)).
Proof.
  intros Hk. unfold generate_response, generate_response_fuel.
  assert (Hl : while_loop self (build_system_content self history) tools tm k
                 (Z.to_nat k) 0 [mkMessage user (MText query)] w
               = (w, [], Some (Exhausted [mkMessage user (MText query)] 0))).
  { replace (Z.to_nat k) with 0%nat by lia. cbn [while_loop].
    destruct (Z.ltb_spec 0 k); [lia|reflexivity]. }
  rewrite run_from_eq with (1 := Hl). reflexivity.
Qed.

(** ** The size of the conversation *)

Lemma rounds_shape_length (n : nat) :
  forall rounds, rounds_shape n rounds = true -> List.length rounds = (2 * n)%nat.
Proof.
  induction n as [|n IH]; intros rounds H.
  - now apply rounds_shape_nil_inv in H as ->.
  - apply rounds_shape_succ_inv in H as (a & u & rest & -> & _ & _ & Hrest).
    cbn [List.length]. rewrite (IH rest Hrest). lia.
Qed.

(** X5 -- The request at position [i] of a run carries [2 * i + 1]
    messages: the query, and two messages for each round before it. *)
Theorem messages_grow_by_two (World : Type) (self : AIGenerator World)
  (query : string) (history : option string) (tools : option (list Tool))
  (tm : option (ToolManager World)) (k : Z) (w : World) (i : nat) (p : ApiParams) :
  nth_error (llm_requests (log_of (generate_response self query history tools tm k w))) i
  = Some p ->
  List.length (api_messages p) = (2 * i + 1)%nat.
Proof.
  intros Hp.
  destruct (generate_response_runs self query history tools tm k w)
    as (w1 & t1 & exit & _ & Hrun & Hgen).
  rewrite Hgen in Hp. clear Hgen.
  assert (Hconv0 : conversation_after query 0 [mkMessage user (MText query)])
    by (exists []; now split).
  destruct (loop_run_history Hrun Hconv0) as (H1 & _ & _ & _ & H5).
  assert (Hlen : forall n ms, conversation_after query n ms ->
                   List.length ms = (2 * n + 1)%nat).
  { intros n ms (rounds & -> & Hshape). cbn [List.length].
    rewrite (rounds_shape_length _ _ Hshape). lia. }
  destruct exit as [ms' rc' result|ms' rc'].
  - destruct (H1 i p Hp) as (Ha & _ & _). now apply Hlen.
  - destruct (client self w1 (base_api_params self (build_system_content self history) ms'))
      as [w2 r].
    cbn [log_of fst snd] in Hp. rewrite llm_requests_app in Hp. cbn [llm_requests] in Hp.
    apply nth_error_snoc_cases in Hp as [[_ Hp]|[-> ->]].
    + destruct (H1 i p Hp) as (Ha & _ & _). now apply Hlen.
    + now apply Hlen.
Qed.

(** ** The tools a run executes *)

Lemma requested_calls_tool_events (n : nat) (uses : list ContentBlock)
  (os : list (Exc string)) (t : list Event) :
  requested_calls n (round_events uses os ++ t) = requested_calls n t.
Proof.
  unfold round_events.
  induction (combine uses os) as [|bo l IH]; [reflexivity|exact IH].
Qed.

Lemma round_events_calls (uses : list ContentBlock) (os : list (Exc string)) :
  List.length os = List.length uses ->
  tool_calls (round_events uses os) = map call_of uses.
Proof. apply round_events_tool_calls. Qed.

Section Executed.

Variable World : Type.
Variable self : AIGenerator World.
Variable system_content : string.
Variable tools : option (list Tool).
Variable tmgr : ToolManager World.
Variable max_rounds : Z.

(** With an executor, a run of the loop executes what the responses to its
    requests ask for, and what follows the loop is not counted. *)
Lemma loop_run_executes rc ms w w' t exit :
  loop_run self system_content tools (Some tmgr) max_rounds rc ms w w' t exit ->
  match exit with
  | Returned _ _ _ =>
      requested_calls (Z.to_nat (max_rounds - rc)) t = tool_calls t
  | Exhausted _ _ =>
      forall rest,
        requested_calls (Z.to_nat (max_rounds - rc)) (t ++ rest) = tool_calls t
  end.
Proof.
  induction 1 as
    [ rc ms w Hge | rc ms w w1 e Hlt Hc | rc ms w w1 response Hlt Hc Hp
    | rc ms w w1 response tm e Hlt Hc Hp Hcont
    | rc ms w w1 response tm blocks Hlt Hc Hp Hcont Hu
    | rc ms w w1 response tm blocks w2 os w3 t exit Hlt Hc Hp Hcont Hu Ho Hrun IH ].
  - intros rest. replace (Z.to_nat (max_rounds - rc)) with 0%nat by lia.
    cbn [app tool_calls]. destruct rest as [|[q o|n i o] rest]; cbn; try reflexivity.
    induction rest as [|[q' o'|n' i' o'] rest IH]; cbn; auto.
  - destruct (Z.to_nat (max_rounds - rc)) as [|n] eqn:Hn; [lia|]. reflexivity.
  - destruct (Z.to_nat (max_rounds - rc)) as [|n] eqn:Hn; [lia|].
    cbn [requested_calls tool_calls].
    destruct (stop_reason response =? "tool_use")%string; [discriminate Hp|reflexivity].
  - destruct (Z.to_nat (max_rounds - rc)) as [|n] eqn:Hn; [lia|].
    cbn [requested_calls tool_calls]. rewrite Hcont.
    destruct (stop_reason response =? "tool_use")%string; reflexivity.
  - destruct (Z.to_nat (max_rounds - rc)) as [|n] eqn:Hn; [lia|].
    cbn [requested_calls tool_calls]. rewrite Hcont, Hu.
    destruct (stop_reason response =? "tool_use")%string; reflexivity.
  - pose proof (tool_outcomes_length tm (tool_uses blocks) w1) as Hlen.
    rewrite Ho in Hlen. cbn [snd] in Hlen.
    assert (Hstop : (stop_reason response =? "tool_use")%string = true)
      by (destruct (stop_reason response =? "tool_use")%string;
          [reflexivity|discriminate Hp]).
    replace (Z.to_nat (max_rounds - rc))
      with (S (Z.to_nat (max_rounds - (rc + 1)))) by lia.
    destruct exit as [ms' rc' result|ms' rc'].
    + cbn [requested_calls tool_calls]. rewrite Hstop, Hcont.
      rewrite requested_calls_tool_events, IH, tool_calls_app.
      now rewrite round_events_calls.
    + intros rest. cbn [app requested_calls tool_calls]. rewrite Hstop, Hcont.
      rewrite <- app_assoc, requested_calls_tool_events, IH, tool_calls_app.
      now rewrite round_events_calls.
Qed.

End Executed.

(** X6 -- With an executor, the tool calls of a run are, in order, the
    calls of the tool-use blocks of every response to one of its first
    [max_rounds] requests that signals tool use: each of them is executed
    once, whether or not a catalog was offered, and nothing else is
    executed; the tool-use blocks of the response to the final request are
    not. *)
Theorem executes_what_was_requested (World : Type) (self : AIGenerator World)
  (query : string) (history : option string) (tools : option (list Tool))
  (tmgr : ToolManager World) (k : Z) (w : World) :
  tool_calls (log_of (generate_response self query history tools (Some tmgr) k w))
  = requested_calls (Z.to_nat k)
      (log_of (generate_response self query history tools (Some tmgr) k w)).
Proof.
  destruct (generate_response_runs self query history tools (Some tmgr) k w)
    as (w1 & t1 & exit & _ & Hrun & Hgen).
  rewrite Hgen. clear Hgen.
  pose proof (loop_run_executes Hrun) as Hexec.
  rewrite Z.sub_0_r in Hexec.
  destruct exit as [ms' rc' result|ms' rc'].
  - cbn [log_of fst snd]. now rewrite Hexec.
  - destruct (client self w1 (base_api_params self (build_system_content self history) ms'))
      as [w2 r].
    cbn [log_of fst snd]. rewrite Hexec, tool_calls_app. cbn [tool_calls].
    now rewrite app_nil_r.
Qed.

(** ** Where the answer comes from *)

Section Answer.

Variable World : Type.
Variable self : AIGenerator World.
Variable system_content : string.
Variable tools : option (list Tool).
Variable tool_manager : option (ToolManager World).
Variable max_rounds : Z.

(** A loop that leaves by [return] ends its log with a request, and what
    it returns is read off the outcome of that request. *)
Lemma loop_run_answer rc ms w w' t exit :
  loop_run self system_content tools tool_manager max_rounds rc ms w w' t exit ->
  forall ms' rc' result, exit = Returned ms' rc' result ->
    exists t' p o,
      t = t' ++ [LLMCall p o] /\
      result = answer_of true (truthy_obj tool_manager) o.
Proof.
  induction 1 as
    [ rc ms w Hge | rc ms w w1 e Hlt Hc | rc ms w w1 response Hlt Hc Hp
    | rc ms w w1 response tm e Hlt Hc Hp Hcont
    | rc ms w w1 response tm blocks Hlt Hc Hp Hcont Hu
    | rc ms w w1 response tm blocks w2 os w3 t exit Hlt Hc Hp Hcont Hu Ho Hrun IH ];
    intros ms' rc' result E; try discriminate E.
  - injection E as _ _ <-. now exists [], (loop_api_params self system_content tools tool_manager ms), (Raise e).
  - injection E as _ _ <-.
    exists [], (loop_api_params self system_content tools tool_manager ms), (Ok response).
    split; [reflexivity|]. unfold answer_of, _extract_text_from_response.
    destruct (content response) as [blocks|e]; [reflexivity|].
    unfold py_and in Hp. cbn [andb].
    destruct (stop_reason response =? "tool_use")%string; [|reflexivity].
    now rewrite Hp.
  - injection E as _ _ <-.
    exists [], (loop_api_params self system_content tools tool_manager ms), (Ok response).
    split; [reflexivity|]. unfold answer_of. rewrite Hcont.
    unfold py_and in Hp. cbn [andb].
    destruct (stop_reason response =? "tool_use")%string; [|discriminate Hp].
    now rewrite Hp.
  - injection E as _ _ <-.
    exists [], (loop_api_params self system_content tools tool_manager ms), (Ok response).
    split; [reflexivity|]. unfold answer_of, _extract_text_from_response.
    now rewrite Hcont.
  - destruct (IH _ _ _ E) as (t' & p & o & -> & Hres).
    exists (LLMCall (loop_api_params self system_content tools tool_manager ms) (Ok response)
              :: round_events (tool_uses blocks) os ++ t'), p, o.
    split; [|assumption]. cbn [app]. now rewrite <- app_assoc.
Qed.

End Answer.

(** X7 -- Every run logs at least one request and its log ends with a
    request; what the run returns is read off the outcome of that last
    request alone.  If the request raised, the run returns the error string
    of the loop or of the final request.  If it was answered, the run
    returns the text of the first block that exposes text, or the sentinel.
    If the content of the response cannot be iterated, the run returns the
    extraction error string, except when the request is one of the loop, the
    response signals tool use and an executor is given: then the exception
    leaves [generate_response]. *)
Theorem answer_from_last_request (World : Type) (self : AIGenerator World)
  (query : string) (history : option string) (tools : option (list Tool))
  (tm : option (ToolManager World)) (k : Z) (w : World) :
  exists w' t' p o messages,
    generate_response self query history tools tm k w
    = (w', t' ++ [LLMCall p o],
       Some (messages,
             answer_of (Z.of_nat (count_llm_calls t') <? k) (truthy_obj tm) o)).
Proof.
  destruct (generate_response_runs self query history tools tm k w)
    as (w1 & t1 & exit & _ & Hrun & Hgen).
  rewrite Hgen. clear Hgen.
  destruct exit as [ms' rc' result|ms' rc'].
  - destruct (loop_run_answer Hrun eq_refl) as (t' & p & o & -> & ->).
    destruct (loop_run_at_call Hrun _ _ _ _ eq_refl)
      as (rc1 & _ & _ & Hrc & Hlt & _).
    exists w1, t', p, o, ms'.
    destruct (Z.ltb_spec (Z.of_nat (count_llm_calls t')) k); [reflexivity|lia].
  - destruct (loop_run_budget Hrun) as [_ [Hcount _]].
    destruct (client self w1 (base_api_params self (build_system_content self history) ms'))
      as [w2 r].
    exists w2, t1, (base_api_params self (build_system_content self history) ms'), r, ms'.
    destruct (Z.ltb_spec (Z.of_nat (count_llm_calls t1)) k); [lia|].
    unfold answer_of, final_text, _extract_text_from_response.
    destruct r as [final_response|e]; [|reflexivity].
    destruct (content final_response); reflexivity.
Qed.

(** ** What a tool round reports *)

Lemma round_events_nth (uses : list ContentBlock) (os : list (Exc string))
  (i : nat) (b : ContentBlock) (o : Exc string) :
  nth_error uses i = Some b ->
  nth_error os i = Some o ->
  nth_error (round_events uses os) i = Some (tool_event_of b o).
Proof.
  unfold round_events. revert os i.
  induction uses as [|b0 uses IH]; intros [|o0 os] [|i] Hb Ho;
    cbn in *; try discriminate.
  - congruence.
  - now apply IH.
Qed.

Lemma no_tool_use_forallb (blocks : list ContentBlock) :
  forallb (fun b => negb (is_tool_use b)) blocks
  = match tool_uses blocks with [] => true | _ :: _ => false end.
Proof.
  induction blocks as [|b blocks IH]; [reflexivity|].
  rewrite tool_uses_cons. cbn [forallb].
  destruct (is_tool_use b); [reflexivity|exact IH].
Qed.

(** X8 -- [_execute_tool_round] on a response whose content can be iterated
    executes the tool-use blocks in order and no other block, and returns
    [True] exactly when there is a tool-use block, also when every execution
    raised.  It appends exactly two messages then: the assistant message
    holding the content of the response, and the user message holding the
    tool results, one per tool-use block and in their order, each keyed to
    its block and holding what the execution logged for that block gave
    (the error text when it raised).  It appends the assistant message alone
    when it returns [False]. *)
Theorem tool_round_reports_tool_use (World : Type) (tm : ToolManager World)
  (response : Response) (blocks : list ContentBlock) (ms : list Message) (w : World) :
  content response = Ok blocks ->
  exists w' os,
    List.length os = List.length (tool_uses blocks) /\
    _execute_tool_round response ms tm w
    = (w', round_events (tool_uses blocks) os,
       (ms ++ mkMessage assistant (MResponse (Ok blocks))
           :: (if forallb (fun b => negb (is_tool_use b)) blocks then []
               else [mkMessage user
                       (MResults (round_results (tool_uses blocks) os))]),
        Ok (negb (forallb (fun b => negb (is_tool_use b)) blocks)))) /\
    tool_calls (round_events (tool_uses blocks) os)
    = map call_of (tool_uses blocks) /\
    List.length (round_events (tool_uses blocks) os)
    = List.length (tool_uses blocks) /\
    List.length (round_results (tool_uses blocks) os)
    = List.length (tool_uses blocks) /\
    map tool_use_id (round_results (tool_uses blocks) os)
    = map block_id (tool_uses blocks) /\
    (forall i b o,
        nth_error (tool_uses blocks) i = Some b ->
        nth_error os i = Some o ->
        nth_error (round_events (tool_uses blocks) os) i
        = Some (ToolCall (block_name b) (block_input b) o) /\
        nth_error (round_results (tool_uses blocks) os) i
        = Some (mkToolResult (block_id b)
                  match o with
                  | Ok tool_result => tool_result
                  | Raise e => ("Error executing tool: " ++ e)%string
                  end)).
Proof.
  intros Hcont.
  destruct (tool_outcomes tm (tool_uses blocks) w) as [w' os] eqn:Ho.
  pose proof (tool_outcomes_length tm (tool_uses blocks) w) as Hlen.
  rewrite Ho in Hlen. cbn [snd] in Hlen.
  exists w', os. split; [assumption|].
  split.
  - rewrite execute_tool_round_ok with (1 := Hcont) (2 := Ho).
    rewrite no_tool_use_forallb, Hcont.
    destruct (tool_uses blocks) as [|b uses]; reflexivity.
  - split; [now apply round_events_calls|].
    split; [unfold round_events; rewrite length_map, length_combine; lia|].
    split; [now apply round_results_length|].
    split; [now apply round_results_ids|].
    intros i b o Hb Hi. split.
    + now rewrite round_events_nth with (1 := Hb) (2 := Hi).
    + now rewrite round_results_nth with (1 := Hb) (2 := Hi).
Qed.

(** ** More budget *)

(** A run of the loop that leaves by [return] is a run under any larger
    budget. *)
Lemma loop_run_more_budget (World : Type) (self : AIGenerator World)
  (system_content : string) (tools : option (list Tool))
  (tm : option (ToolManager World)) (k k' : Z) rc ms w w' t exit :
  k <= k' ->
  loop_run self system_content tools tm k rc ms w w' t exit ->
  match exit with
  | Returned _ _ _ => loop_run self system_content tools tm k' rc ms w w' t exit
  | Exhausted _ _ => True
  end.
Proof.
  intros Hk.
  induction 1 as
    [ rc ms w Hge | rc ms w w1 e Hlt Hc | rc ms w w1 response Hlt Hc Hp
    | rc ms w w1 response tmgr e Hlt Hc Hp Hcont
    | rc ms w w1 response tmgr blocks Hlt Hc Hp Hcont Hu
    | rc ms w w1 response tmgr blocks w2 os w3 t exit Hlt Hc Hp Hcont Hu Ho Hrun IH ].
  - exact I.
  - apply run_transport_error; [lia|assumption].
  - apply run_answer; [lia|assumption|assumption].
  - eapply run_content_error; [lia|eassumption|eassumption|assumption].
  - eapply run_degenerate; [lia|eassumption|eassumption|eassumption|assumption].
  - destruct exit as [ms' rc' result|ms' rc']; [|exact I].
    eapply run_round; [lia|eassumption|eassumption|eassumption|assumption|eassumption|].
    exact IH.
Qed.

(** X9 -- A run that sent no more than [k] requests (it returned from
    inside the loop, without the final request) is the same run under
    every larger budget: same final world, same log, same result. *)
Theorem larger_budget_same_run (World : Type) (self : AIGenerator World)
  (query : string) (history : option string) (tools : option (list Tool))
  (tm : option (ToolManager World)) (k k' : Z) (w : World) :
  Z.of_nat (count_llm_calls (log_of (generate_response self query history tools tm k w)))
  <= k ->
  k <= k' ->
  generate_response self query history tools tm k' w
  = generate_response self query history tools tm k w.
Proof.
  intros Hcount Hk.
  destruct (generate_response_runs self query history tools tm k w)
    as (w1 & t1 & exit & _ & Hrun & Hgen).
  rewrite Hgen in *. clear Hgen.
  destruct exit as [ms' rc' result|ms' rc'].
  - pose proof (loop_run_more_budget Hk Hrun) as Hrun'. cbn in Hrun'.
    unfold generate_response, generate_response_fuel.
    rewrite run_from_eq
      with (1 := while_loop_complete Hrun' (fuel := Z.to_nat k') ltac:(lia)).
    reflexivity.
  - exfalso. destruct (loop_run_budget Hrun) as [_ [Hloop _]].
    destruct (client self w1 (base_api_params self (build_system_content self history) ms'))
      as [w2 r].
    cbn [log_of fst snd] in Hcount. rewrite count_llm_calls_app in Hcount.
    cbn in Hcount. lia.
Qed.

(* ================================================================== *)
(** * The further properties at work on the scripted collaborators *)

Import Scripts.

(** The third request of the script that asks for a tool at every call. *)
Lemma requests_by_position_witness :
  nth_error
    (llm_requests
       (log_of (generate_response generator query None (Some sample_tools)
                  (Some scripted_tool_manager) 2 always_tools))) 2
  = Some (plain_request after_second_round) /\
  plain_request after_second_round
  = request_at (model generator) (build_system_content generator None)
      (Some sample_tools) true 2 2 (api_messages (plain_request after_second_round)).
Proof.
  split; [reflexivity|].
  apply (@requests_by_position Script generator query None (Some sample_tools)
           (Some scripted_tool_manager) 2 always_tools 2
           (plain_request after_second_round)).
  reflexivity.
Defined.

(** A history of one line. *)
Lemma system_content_of_requests_witness :
  In (mkApiParams "test-model" 0 800 initial_messages
        ("You are an AI assistant" ++ newline ++ newline ++ "Previous conversation:"
           ++ newline ++ "Previous Q: What is Python?")
        (Some sample_tools) (Some tool_choice_auto))
    (llm_requests
       (log_of (generate_response generator query (Some "Previous Q: What is Python?")
                  (Some sample_tools) (Some scripted_tool_manager) 2 direct_answer))) /\
  "Previous Q: What is Python?" <> EmptyString /\
  api_system
    (mkApiParams "test-model" 0 800 initial_messages
       ("You are an AI assistant" ++ newline ++ newline ++ "Previous conversation:"
          ++ newline ++ "Previous Q: What is Python?")
       (Some sample_tools) (Some tool_choice_auto))
  = (SYSTEM_PROMPT generator ++ newline ++ newline ++ "Previous conversation:"
       ++ newline ++ "Previous Q: What is Python?")%string.
Proof.
  assert (Hin : In (mkApiParams "test-model" 0 800 initial_messages
                      ("You are an AI assistant" ++ newline ++ newline
                         ++ "Previous conversation:" ++ newline
                         ++ "Previous Q: What is Python?")
                      (Some sample_tools) (Some tool_choice_auto))
                  (llm_requests
                     (log_of (generate_response generator query
                                (Some "Previous Q: What is Python?")
                                (Some sample_tools) (Some scripted_tool_manager) 2
                                direct_answer))))
    by (left; reflexivity).
  assert (Hne : "Previous Q: What is Python?" <> EmptyString) by discriminate.
  split; [exact Hin|]. split; [exact Hne|].
  exact (proj2 (system_content_of_requests generator query
                  (Some "Previous Q: What is Python?") (Some sample_tools)
                  (Some scripted_tool_manager) 2 direct_answer _ Hin)
           _ eq_refl Hne).
Defined.

(** The model answers at once; the tool-use block of its response is not
    executed. *)
Lemma answer_ends_run_witness :
  generate_response generator query None (Some sample_tools)
    (Some scripted_tool_manager) 2 direct_answer
  = (mkScript [] [Ok "never used"],
     [] ++ LLMCall (tool_request initial_messages)
             (Ok (mkResponse "end_turn"
                    (Ok [search_block; TextBlock "I can answer this directly"])))
        :: [],
     Some (initial_messages, Ok "I can answer this directly")) /\
  Z.of_nat (count_llm_calls []) < 2 /\
  ("end_turn" <> "tool_use" \/ Some scripted_tool_manager = None) /\
  @nil Event = [] /\
  Some (initial_messages, Ok "I can answer this directly")
  = Some (api_messages (tool_request initial_messages),
          Ok (_extract_text_from_response
                (mkResponse "end_turn"
                   (Ok [search_block; TextBlock "I can answer this directly"])))).
Proof.
  assert (Hwhy : "end_turn" <> "tool_use" \/ Some scripted_tool_manager = None)
    by (left; discriminate).
  split; [reflexivity|]. split; [reflexivity|]. split; [exact Hwhy|].
  exact (@answer_ends_run Script generator query None (Some sample_tools)
           (Some scripted_tool_manager) 2 direct_answer
           (mkScript [] [Ok "never used"]) _ [] []
           (tool_request initial_messages)
           (mkResponse "end_turn"
              (Ok [search_block; TextBlock "I can answer this directly"]))
           _ eq_refl eq_refl eq_refl Hwhy).
Defined.

(** A negative budget. *)
Lemma nonpositive_budget_witness :
  -3 <= 0 /\
  generate_response generator query None (Some sample_tools)
    (Some scripted_tool_manager) (-3) always_tools
  = (mkScript
       [Ok second_response; Ok (text_response "Final answer after max rounds")]
       [Ok "Found: Python fundamentals lesson"; Raise "Tool execution failed"],
     [LLMCall (plain_request initial_messages) (Ok (tool_response [search_block]))],
     Some (initial_messages, Ok "No text content in response")).
Proof.
  split; [lia|].
  exact (@nonpositive_budget Script generator query None (Some sample_tools)
           (Some scripted_tool_manager) (-3) always_tools ltac:(lia)).
Defined.

(** The third request carries five messages. *)
Lemma messages_grow_by_two_witness :
  nth_error
    (llm_requests
       (log_of (generate_response generator query None (Some sample_tools)
                  (Some scripted_tool_manager) 2 always_tools))) 2
  = Some (plain_request after_second_round) /\
  List.length (api_messages (plain_request after_second_round)) = (2 * 2 + 1)%nat.
Proof.
  split; [reflexivity|].
  apply (@messages_grow_by_two Script generator query None (Some sample_tools)
           (Some scripted_tool_manager) 2 always_tools 2
           (plain_request after_second_round)).
  reflexivity.
Defined.

(** Two tool-use blocks whose executions both raise: the round reports
    [True] and appends the assistant message and the two error results. *)
Lemma tool_round_reports_tool_use_witness :
  content (tool_response [search_block; outline_block])
  = Ok [search_block; outline_block] /\
  _execute_tool_round (tool_response [search_block; outline_block])
    initial_messages scripted_tool_manager
    (mkScript [] [Raise "Tool execution failed"; Raise "Tool execution failed"])
  = (mkScript [] [],
     [ ToolCall "search_course_content" [("query", "python basics")]
         (Raise "Tool execution failed");
       ToolCall "get_course_outline" [("course_name", "MCP")]
         (Raise "Tool execution failed") ],
     (initial_messages
        ++ [ mkMessage assistant (MResponse (Ok [search_block; outline_block]));
             mkMessage user
               (MResults
                  [ mkToolResult "tool_1" "Error executing tool: Tool execution failed";
                    mkToolResult "tool_2" "Error executing tool: Tool execution failed" ]) ],
      Ok true)) /\
  exists w' os,
    List.length os = List.length (tool_uses [search_block; outline_block]) /\
    _execute_tool_round (tool_response [search_block; outline_block])
      initial_messages scripted_tool_manager
      (mkScript [] [Raise "Tool execution failed"; Raise "Tool execution failed"])
    = (w', round_events (tool_uses [search_block; outline_block]) os,
       (initial_messages
          ++ mkMessage assistant (MResponse (Ok [search_block; outline_block]))
          :: (if forallb (fun b => negb (is_tool_use b)) [search_block; outline_block]
              then []
              else [mkMessage user
                      (MResults
                         (round_results (tool_uses [search_block; outline_block]) os))]),
        Ok (negb (forallb (fun b => negb (is_tool_use b))
                    [search_block; outline_block])))) /\
    map tool_use_id (round_results (tool_uses [search_block; outline_block]) os)
    = map block_id (tool_uses [search_block; outline_block]).
Proof.
  split; [reflexivity|]. split; [reflexivity|].
  destruct (@tool_round_reports_tool_use Script scripted_tool_manager
              (tool_response [search_block; outline_block])
              [search_block; outline_block] initial_messages
              (mkScript [] [Raise "Tool execution failed"; Raise "Tool execution failed"])
              eq_refl)
    as (w' & os & H1 & H2 & _ & _ & _ & H6 & _).
  exists w', os. split; [assumption|]. split; assumption.
Defined.

(** One request was enough under a budget of one; a budget of five changes
    nothing. *)
Lemma larger_budget_same_run_witness :
  Z.of_nat
    (count_llm_calls
       (log_of (generate_response generator query None (Some sample_tools)
                  (Some scripted_tool_manager) 1 direct_answer))) <= 1 /\
  1 <= 5 /\
  generate_response generator query None (Some sample_tools)
    (Some scripted_tool_manager) 5 direct_answer
  = generate_response generator query None (Some sample_tools)
      (Some scripted_tool_manager) 1 direct_answer.
Proof.
  assert (H1 : Z.of_nat
                 (count_llm_calls
                    (log_of (generate_response generator query None (Some sample_tools)
                               (Some scripted_tool_manager) 1 direct_answer))) <= 1)
    by (vm_compute; discriminate).
  assert (H2 : 1 <= 5) by lia.
  split; [exact H1|]. split; [exact H2|].
  exact (@larger_budget_same_run Script generator query None (Some sample_tools)
           (Some scripted_tool_manager) 1 5 direct_answer H1 H2).
Defined.

(* ================================================================== *)
(** * Properties of the test utilities *)

(** ** Generated ids *)

Lemma str_of_nat_inj (n m : nat) : str_of_nat n = str_of_nat m -> n = m.
Proof.
  unfold str_of_nat. intros H.
  apply DecimalNat.Unsigned.to_uint_inj.
  pose proof (DecimalString.NilEmpty.usu (Nat.to_uint n)) as Hn.
  pose proof (DecimalString.NilEmpty.usu (Nat.to_uint m)) as Hm.
  rewrite H in Hn. congruence.
Qed.

Lemma generated_id_inj (n m : nat) :
  ("id_" ++ str_of_nat n)%string = ("id_" ++ str_of_nat m)%string -> n = m.
Proof. cbn. intros H. injection H as H. now apply str_of_nat_inj. Qed.

(** ** Lists *)

Lemma without_length {A : Type} (i : nat) (l : list A) :
  (i < List.length l)%nat -> List.length (without i l) = pred (List.length l).
Proof.
  intros H. unfold without. rewrite length_app, length_firstn, length_skipn. lia.
Qed.

Lemma list_index_bound (x : string) (l : list string) (i : nat) :
  list_index x l = Some i -> (i < List.length l)%nat.
Proof.
  revert i. induction l as [|y l IH]; intros i H; cbn in H; [discriminate|].
  destruct (y =? x)%string.
  - injection H as <-. cbn. lia.
  - destruct (list_index x l) as [j|]; [|discriminate].
    injection H as <-. specialize (IH j eq_refl). cbn. lia.
Qed.

Lemma list_index_none (x : string) (l : list string) :
  list_index x l = None <-> ~ In x l.
Proof.
  induction l as [|y l IH]; cbn.
  - split; [intros _ []|reflexivity].
  - destruct (String.eqb_spec y x) as [->|Hne].
    + split; [discriminate|]. intros H. exfalso. apply H. now left.
    + destruct (list_index x l) as [j|].
      * split; [discriminate|]. intros H. exfalso.
        destruct IH as [_ IH]. assert (Hnone : Some j = None); [|discriminate].
        apply IH. intros Hin. apply H. now right.
      * split; [|reflexivity]. intros _ [H|H]; [congruence|].
        now apply (proj1 IH).
Qed.

Lemma list_index_snoc_fresh (x : string) (l : list string) :
  ~ In x l -> list_index x (l ++ [x]) = Some (List.length l).
Proof.
  induction l as [|y l IH]; intros H; cbn.
  - now rewrite String.eqb_refl.
  - destruct (String.eqb_spec y x) as [->|Hne]; [exfalso; apply H; now left|].
    rewrite IH; [reflexivity|]. intros Hin. apply H. now right.
Qed.

Lemma without_snoc {A : Type} (l : list A) (x : A) :
  without (List.length l) (l ++ [x]) = l.
Proof.
  unfold without. rewrite firstn_app, Nat.sub_diag, firstn_all. cbn [firstn].
  rewrite skipn_all2 by (rewrite length_app; cbn; lia). now rewrite !app_nil_r.
Qed.

Lemma list_pop_ok {A : Type} (l : list A) (i : nat) :
  (i < List.length l)%nat -> list_pop l i = Ok (without i l).
Proof.
  intros H. unfold list_pop. now destruct (Nat.ltb_spec i (List.length l)); [|lia].
Qed.

(** ** [MockChromaDBCollection.add] *)

Section AddProperties.

Variable Metadata : Type.
Variable empty_metadata : Metadata.
Variable Embedding : Type.
Variable default_embedding : Embedding.

Local Abbreviation collection := (Coll.Collection Metadata Embedding).
Local Abbreviation add_one := (Coll.add_one empty_metadata default_embedding).
Local Abbreviation add_from := (Coll.add_from empty_metadata default_embedding).

Lemma covers_le {A : Type} (arg : option (list A)) (n m : nat) :
  (n <= m)%nat -> Coll.covers arg m = true -> Coll.covers arg n = true.
Proof.
  unfold Coll.covers. intros Hle H.
  destruct (truthy_list arg); [|reflexivity]. cbn [negb orb] in *.
  destruct arg as [l|]; [|reflexivity].
  apply Nat.leb_le in H. apply Nat.leb_le. lia.
Qed.

Lemma item_or_covers {A : Type} (arg : option (list A)) (i : nat) (default : A) :
  Coll.covers arg (S i) = true ->
  exists x, Coll.item_or arg i default = Ok x.
Proof.
  unfold Coll.covers, Coll.item_or. intros H.
  destruct (truthy_list arg); [|now exists default]. cbn [negb orb] in H.
  destruct arg as [l|]; [|now exists default].
  apply Nat.leb_le in H.
  destruct (nth_error l i) as [x|] eqn:Hx; [now exists x|].
  apply nth_error_None in Hx. lia.
Qed.

Lemma item_or_ok_covers {A : Type} (arg : option (list A)) (i : nat) (default x : A) :
  Coll.item_or arg i default = Ok x -> Coll.covers arg (S i) = true.
Proof.
  unfold Coll.covers, Coll.item_or. intros H.
  destruct (truthy_list arg); [|reflexivity]. cbn [negb orb].
  destruct arg as [l|]; [|reflexivity].
  destruct (nth_error l i) as [y|] eqn:Hy; [|discriminate].
  apply Nat.leb_le. assert (i < List.length l)%nat by (apply nth_error_Some; congruence).
  lia.
Qed.

Lemma item_or_raise {A : Type} (arg : option (list A)) (i : nat) (default : A) (e : string) :
  Coll.item_or arg i default = Raise e ->
  e = "list index out of range" /\ Coll.covers arg (S i) = false.
Proof.
  unfold Coll.covers, Coll.item_or. intros H.
  destruct (truthy_list arg); [|discriminate]. cbn [negb orb].
  destruct arg as [l|]; [|discriminate].
  destruct (nth_error l i) as [x|] eqn:Hx; [discriminate|].
  injection H as <-. split; [reflexivity|].
  apply nth_error_None in Hx. apply Nat.leb_gt. lia.
Qed.

(** One iteration that ends normally appends one entry to each list. *)
Lemma add_one_ok (c c' : collection) i doc m ids_arg e :
  add_one c i doc m ids_arg e = (c', Ok tt) ->
  exists meta id emb,
    Coll.item_or m i empty_metadata = Ok meta /\
    Coll.item_or ids_arg i ("id_" ++ str_of_nat (Coll._id_counter c))%string = Ok id /\
    Coll.item_or e i default_embedding = Ok emb /\
    c' = Coll.mkCollection (Coll.documents c ++ [doc]) (Coll.metadatas c ++ [meta])
           (Coll.ids c ++ [id]) (Coll.embeddings c ++ [emb])
           (S (Coll._id_counter c)).
Proof.
  unfold Coll.add_one. cbn [Coll.documents Coll.metadatas Coll.ids Coll.embeddings
                              Coll._id_counter].
  intros H.
  destruct (Coll.item_or m i empty_metadata) as [meta|e1]; [|discriminate].
  destruct (Coll.item_or ids_arg i _) as [id|e2]; [|discriminate].
  destruct (Coll.item_or e i default_embedding) as [emb|e3]; [|discriminate].
  injection H as <-. now exists meta, id, emb.
Qed.

(** One iteration that raises has appended the document, and no embedding. *)
Lemma add_one_raise (c c' : collection) i doc m ids_arg e err :
  add_one c i doc m ids_arg e = (c', Raise err) ->
  err = "list index out of range" /\
  Coll.documents c' = Coll.documents c ++ [doc] /\
  Coll.embeddings c' = Coll.embeddings c /\
  (Coll.covers m (S i) && Coll.covers ids_arg (S i) && Coll.covers e (S i) = false).
Proof.
  unfold Coll.add_one. cbn [Coll.documents Coll.metadatas Coll.ids Coll.embeddings
                              Coll._id_counter].
  intros H.
  destruct (Coll.item_or m i empty_metadata) as [meta|e1] eqn:H1.
  - destruct (Coll.item_or ids_arg i _) as [id|e2] eqn:H2.
    + destruct (Coll.item_or e i default_embedding) as [emb|e3] eqn:H3;
        [discriminate|].
      injection H as <- <-. apply item_or_raise in H3 as [-> H3].
      rewrite H3, andb_false_r. repeat split; reflexivity.
    + injection H as <- <-. apply item_or_raise in H2 as [-> H2].
      rewrite H2, andb_false_r. repeat split; reflexivity.
  - injection H as <- <-. apply item_or_raise in H1 as [-> H1].
    rewrite H1. repeat split; reflexivity.
Qed.

Lemma add_one_covers (c : collection) i doc m ids_arg e :
  Coll.covers m (S i) && Coll.covers ids_arg (S i) && Coll.covers e (S i) = true ->
  exists c', add_one c i doc m ids_arg e = (c', Ok tt).
Proof.
  intros H. apply andb_prop in H as [H H3]. apply andb_prop in H as [H1 H2].
  unfold Coll.add_one.
  destruct (item_or_covers m i empty_metadata H1) as [meta ->].
  cbn [Coll.documents Coll.metadatas Coll.ids Coll.embeddings Coll._id_counter].
  destruct (item_or_covers ids_arg i
              ("id_" ++ str_of_nat (Coll._id_counter c))%string H2) as [id ->].
  destruct (item_or_covers e i default_embedding H3) as [emb ->].
  eexists. reflexivity.
Qed.

(** The loop of [add] ends normally exactly when each optional list that
    is given and not empty has an item for every document. *)
Lemma add_from_ok_iff docs :
  forall (c : collection) i m ids_arg e,
    snd (add_from c i docs m ids_arg e) = Ok tt <->
    (docs = [] \/
     Coll.covers m (i + List.length docs)
     && Coll.covers ids_arg (i + List.length docs)
     && Coll.covers e (i + List.length docs) = true).
Proof.
  induction docs as [|doc rest IH]; intros c i m ids_arg e.
  - cbn. split; [now left|reflexivity].
  - cbn [Coll.add_from List.length].
    destruct (add_one c i doc m ids_arg e) as [c1 [[]|err]] eqn:H1.
    + rewrite IH. apply add_one_ok in H1 as (meta & id & emb & Hm & Hi & He & _).
      split.
      * apply item_or_ok_covers in Hm, Hi, He.
        intros [->|H]; right; [|now rewrite Nat.add_succ_r].
        cbn [List.length]. rewrite Nat.add_1_r. now rewrite Hm, Hi, He.
      * intros [H|H]; [discriminate|]. right. rewrite Nat.add_succ_r in H. exact H.
    + cbn [snd]. apply add_one_raise in H1 as (_ & _ & _ & Hc).
      split; [discriminate|]. intros [H|H]; [discriminate|]. exfalso.
      apply andb_prop in H as [H H3]. apply andb_prop in H as [H1 H2].
      assert (Hle : (S i <= i + S (List.length rest))%nat) by lia.
      rewrite (covers_le m Hle H1), (covers_le ids_arg Hle H2),
        (covers_le e Hle H3) in Hc.
      discriminate.
Qed.

End AddProperties.

Section AddTheorems.

Variable Metadata : Type.
Variable empty_metadata : Metadata.
Variable Embedding : Type.
Variable default_embedding : Embedding.

Local Abbreviation collection := (Coll.Collection Metadata Embedding).
Local Abbreviation add := (Coll.add empty_metadata default_embedding).
Local Abbreviation add_from := (Coll.add_from empty_metadata default_embedding).
Local Abbreviation add_one := (Coll.add_one empty_metadata default_embedding).

Lemma covers_zero {A : Type} (arg : option (list A)) : Coll.covers arg 0 = true.
Proof.
  unfold Coll.covers. destruct (truthy_list arg); [|reflexivity].
  now destruct arg.
Qed.

Lemma item_or_falsy {A : Type} (arg : option (list A)) (i : nat) (default : A) :
  truthy_list arg = false -> Coll.item_or arg i default = Ok default.
Proof. unfold Coll.item_or. now intros ->. Qed.

(** What a loop of [add] that ends normally has done. *)
Lemma add_from_ok docs :
  forall (c c' : collection) i m ids_arg e,
    add_from c i docs m ids_arg e = (c', Ok tt) ->
    Coll.documents c' = Coll.documents c ++ docs /\
    List.length (Coll.metadatas c')
    = (List.length (Coll.metadatas c) + List.length docs)%nat /\
    List.length (Coll.ids c') = (List.length (Coll.ids c) + List.length docs)%nat /\
    List.length (Coll.embeddings c')
    = (List.length (Coll.embeddings c) + List.length docs)%nat /\
    Coll._id_counter c' = (Coll._id_counter c + List.length docs)%nat /\
    (truthy_list ids_arg = false ->
     Coll.ids c'
     = Coll.ids c
         ++ map (fun n => ("id_" ++ str_of_nat n)%string)
              (seq (Coll._id_counter c) (List.length docs))).
Proof.
  induction docs as [|doc rest IH]; intros c c' i m ids_arg e H.
  - cbn in H. injection H as <-. cbn. rewrite !app_nil_r, !Nat.add_0_r.
    repeat split; reflexivity.
  - cbn [Coll.add_from] in H.
    destruct (add_one c i doc m ids_arg e) as [c1 [[]|err]] eqn:H1; [|discriminate].
    apply add_one_ok in H1 as (meta & id & emb & Hm & Hi & He & ->).
    apply IH in H as (Hd & Hms & His & Hes & Hc & Hgen).
    cbn [Coll.documents Coll.metadatas Coll.ids Coll.embeddings Coll._id_counter] in *.
    rewrite length_app in Hms, His, Hes. cbn [List.length] in *.
    split; [now rewrite Hd, <- app_assoc|].
    split; [lia|]. split; [lia|]. split; [lia|]. split; [lia|].
    intros Hfalsy. rewrite (Hgen Hfalsy), <- app_assoc. cbn [seq map app].
    rewrite item_or_falsy in Hi by assumption. now injection Hi as <-.
Qed.

(** What a loop of [add] that raises leaves behind. *)
Lemma add_from_raise docs :
  forall (c c' : collection) i m ids_arg e err,
    add_from c i docs m ids_arg e = (c', Raise err) ->
    List.length (Coll.embeddings c) = List.length (Coll.documents c) ->
    err = "list index out of range" /\
    List.length (Coll.documents c') = S (List.length (Coll.embeddings c')) /\
    exists done, (done < List.length docs)%nat /\
      Coll.documents c' = Coll.documents c ++ firstn (S done) docs.
Proof.
  induction docs as [|doc rest IH]; intros c c' i m ids_arg e err H Hlen.
  - discriminate H.
  - cbn [Coll.add_from] in H.
    destruct (add_one c i doc m ids_arg e) as [c1 [[]|err1]] eqn:H1.
    + apply add_one_ok in H1 as (meta & id & emb & _ & _ & _ & ->).
      apply IH in H as (-> & Hcount & done & Hdone & Hdocs).
      * split; [reflexivity|]. split; [assumption|].
        exists (S done). split; [cbn; lia|].
        cbn [Coll.documents] in Hdocs. rewrite Hdocs, <- app_assoc. reflexivity.
      * cbn [Coll.documents Coll.embeddings]. rewrite !length_app. cbn. lia.
    + injection H as <- <-.
      apply add_one_raise in H1 as (-> & Hd & He & _).
      split; [reflexivity|]. rewrite Hd, He, length_app. cbn [List.length].
      split; [lia|]. exists 0%nat. split; [cbn; lia|reflexivity].
Qed.

(** X10 -- A call of [add] on an aligned collection that ends normally
    appends the documents in order, keeps the four lists aligned, and raises
    [count] and the id counter by the number of documents (one for an
    argument that is not a list); when no ids are given, the new ids are
    ["id_"] followed by the successive values of the counter. *)
Theorem add_appends_entries (c c' : collection) documents_arg m ids_arg e :
  Coll.aligned c ->
  add c documents_arg m ids_arg e = (c', Ok tt) ->
  Coll.documents c' = Coll.documents c ++ Coll.documents_of documents_arg /\
  Coll.aligned c' /\
  Coll.count c' = (Coll.count c + List.length (Coll.documents_of documents_arg))%nat /\
  Coll._id_counter c'
  = (Coll._id_counter c + List.length (Coll.documents_of documents_arg))%nat /\
  (truthy_list ids_arg = false ->
   Coll.ids c'
   = Coll.ids c
       ++ map (fun n => ("id_" ++ str_of_nat n)%string)
            (seq (Coll._id_counter c) (List.length (Coll.documents_of documents_arg)))).
Proof.
  intros (Hm & Hi & He) H.
  apply add_from_ok in H as (Hd & Hms & His & Hes & Hc & Hgen).
  fold (Coll.documents_of documents_arg) in *.
  split; [assumption|]. unfold Coll.aligned, Coll.count. rewrite Hd, length_app.
  split; [|split; [reflexivity|split; assumption]].
  repeat split; lia.
Qed.

(** X11 -- [add] ends normally exactly when each of [metadatas], [ids] and
    [embeddings] is [None], empty, or at least as long as the documents;
    otherwise it raises the [IndexError] of the subscript. *)
Theorem add_ok_iff (c : collection) documents_arg m ids_arg e :
  let n := List.length (Coll.documents_of documents_arg) in
  (snd (add c documents_arg m ids_arg e) = Ok tt <->
   Coll.covers m n && Coll.covers ids_arg n && Coll.covers e n = true) /\
  (forall err, snd (add c documents_arg m ids_arg e) = Raise err ->
     err = "list index out of range").
Proof.
  intros n. split.
  - unfold Coll.add. fold (Coll.documents_of documents_arg).
    rewrite add_from_ok_iff. cbn [Nat.add]. fold n. split.
    + intros [H|H]; [|assumption]. subst n. rewrite H. cbn [List.length].
      now rewrite !covers_zero.
    + intros H. now right.
  - intros err H. unfold Coll.add in H. fold (Coll.documents_of documents_arg) in H.
    destruct (add_from c 0 (Coll.documents_of documents_arg) m ids_arg e)
      as [c' r] eqn:Hadd.
    cbn [snd] in H. subst r.
    clear n. revert c Hadd. generalize 0%nat.
    induction (Coll.documents_of documents_arg) as [|doc rest IH]; intros i c Hadd.
    + discriminate Hadd.
    + cbn [Coll.add_from] in Hadd.
      destruct (add_one c i doc m ids_arg e) as [c1 [[]|err1]] eqn:H1.
      * eapply IH. eassumption.
      * injection Hadd as _ <-. now apply add_one_raise in H1 as (-> & _).
Qed.

(** X12 -- A call of [add] on an aligned collection that raises leaves the
    collection changed and no longer aligned: the documents up to and
    including the failing one were appended, and the last of them has no
    embedding, so [count] is one more than the number of embeddings. *)
Theorem failed_add_misaligns (c c' : collection) documents_arg m ids_arg e err :
  Coll.aligned c ->
  add c documents_arg m ids_arg e = (c', Raise err) ->
  Coll.count c' = S (List.length (Coll.embeddings c')) /\
  ~ Coll.aligned c' /\
  exists done, (done < List.length (Coll.documents_of documents_arg))%nat /\
    Coll.documents c'
    = Coll.documents c ++ firstn (S done) (Coll.documents_of documents_arg).
Proof.
  intros (_ & _ & He) H.
  apply add_from_raise in H as (_ & Hcount & Hdone); [|assumption].
  split; [exact Hcount|]. split; [|exact Hdone].
  intros (_ & _ & He'). unfold Coll.count in *. lia.
Qed.

End AddTheorems.

(** ** [MockChromaDBCollection.delete] *)

Lemma without_incl {A : Type} (i : nat) (l : list A) (x : A) :
  In x (without i l) -> In x l.
Proof.
  unfold without. intros H. apply in_app_or in H as [H|H].
  - rewrite <- (firstn_skipn i l). apply in_or_app. now left.
  - rewrite <- (firstn_skipn (S i) l). apply in_or_app. now right.
Qed.

Lemma list_index_nth (x : string) (l : list string) (i : nat) :
  list_index x l = Some i -> nth_error l i = Some x.
Proof.
  revert i. induction l as [|y l IH]; intros i H; cbn in H; [discriminate|].
  destruct (String.eqb_spec y x) as [->|Hne].
  - now injection H as <-.
  - destruct (list_index x l) as [j|]; [|discriminate].
    injection H as <-. now apply IH.
Qed.

Lemma without_NoDup (l : list string) (i : nat) (x : string) :
  NoDup l -> nth_error l i = Some x ->
  NoDup (without i l) /\ ~ In x (without i l).
Proof.
  intros Hnd Hx. unfold without.
  destruct (nth_error_split l i Hx) as (l1 & l2 & -> & <-).
  rewrite firstn_app, Nat.sub_diag, firstn_all. cbn [firstn].
  rewrite app_nil_r.
  replace (skipn (S (List.length l1)) (l1 ++ x :: l2)) with l2.
  - split; [now apply NoDup_remove_1 in Hnd|now apply NoDup_remove_2 in Hnd].
  - rewrite skipn_app, skipn_all2 by lia.
    replace (S (List.length l1) - List.length l1)%nat with 1%nat by lia.
    reflexivity.
Qed.

Section DeleteTheorems.

Variable Metadata : Type.
Variable Embedding : Type.

Local Abbreviation collection := (Coll.Collection Metadata Embedding).

(** The collection without its entry at [idx]. *)
Lemma delete_one_aligned (c : collection) (id : string) :
  Coll.aligned c ->
  Coll.delete_one c id
  = (match list_index id (Coll.ids c) with
     | None => c
     | Some idx =>
         Coll.mkCollection (without idx (Coll.documents c))
           (without idx (Coll.metadatas c)) (without idx (Coll.ids c))
           (without idx (Coll.embeddings c)) (Coll._id_counter c)
     end, Ok tt).
Proof.
  intros (Hm & Hi & He). unfold Coll.delete_one.
  destruct (list_index id (Coll.ids c)) as [idx|] eqn:Hidx; [|reflexivity].
  apply list_index_bound in Hidx.
  rewrite list_pop_ok by lia.
  cbn [Coll.documents Coll.metadatas Coll.ids Coll.embeddings Coll._id_counter].
  rewrite list_pop_ok by lia.
  cbn [Coll.documents Coll.metadatas Coll.ids Coll.embeddings Coll._id_counter].
  rewrite list_pop_ok by lia.
  cbn [Coll.documents Coll.metadatas Coll.ids Coll.embeddings Coll._id_counter].
  rewrite list_pop_ok by lia. reflexivity.
Qed.

Lemma delete_one_keeps (c : collection) (id : string) :
  Coll.aligned c ->
  let c' := fst (Coll.delete_one c id) in
  Coll.aligned c' /\
  Coll._id_counter c' = Coll._id_counter c /\
  (Coll.count c' <= Coll.count c)%nat /\
  (forall x, In x (Coll.ids c') -> In x (Coll.ids c)) /\
  (NoDup (Coll.ids c) -> NoDup (Coll.ids c') /\ ~ In id (Coll.ids c')).
Proof.
  intros Hal. rewrite (delete_one_aligned id Hal). cbn [fst].
  destruct Hal as (Hm & Hi & He).
  destruct (list_index id (Coll.ids c)) as [idx|] eqn:Hidx.
  - pose proof (list_index_bound _ _ Hidx) as Hb.
    unfold Coll.aligned, Coll.count.
    cbn [Coll.documents Coll.metadatas Coll.ids Coll.embeddings Coll._id_counter].
    rewrite !without_length by lia.
    split; [repeat split; lia|]. split; [reflexivity|]. split; [lia|].
    split; [intros x; apply without_incl|].
    intros Hnd. eapply without_NoDup; [assumption|]. now apply list_index_nth.
  - split; [now repeat split|]. split; [reflexivity|]. split; [lia|].
    split; [auto|]. intros Hnd. split; [assumption|].
    now apply list_index_none.
Qed.

Lemma delete_each_aligned (l : list string) :
  forall c : collection,
    Coll.aligned c ->
    exists c',
      Coll.delete_each c l = (c', Ok tt) /\
      Coll.aligned c' /\
      Coll._id_counter c' = Coll._id_counter c /\
      (Coll.count c' <= Coll.count c)%nat /\
      (forall x, In x (Coll.ids c') -> In x (Coll.ids c)) /\
      (NoDup (Coll.ids c) ->
       NoDup (Coll.ids c') /\ forall id, In id l -> ~ In id (Coll.ids c')).
Proof.
  induction l as [|id l IH]; intros c Hal.
  - exists c. cbn [Coll.delete_each].
    split; [reflexivity|]. split; [assumption|]. split; [reflexivity|].
    split; [lia|]. split; [auto|]. intros Hnd. split; [assumption|]. intros id [].
  - cbn [Coll.delete_each].
    destruct (delete_one_keeps id Hal) as (Hal1 & Hc1 & Hn1 & Hin1 & Hnd1).
    rewrite (delete_one_aligned id Hal) in *. cbn [fst] in *.
    destruct (IH _ Hal1) as (c' & Hdel & Hal' & Hc' & Hn' & Hin' & Hnd').
    exists c'. split; [exact Hdel|]. split; [exact Hal'|].
    split; [congruence|]. split; [lia|]. split; [auto|].
    intros Hnd. destruct (Hnd1 Hnd) as [Hnd1' Hgone].
    destruct (Hnd' Hnd1') as [Hnd'' Hgone'].
    split; [assumption|]. intros x [<-|Hx]; [|now apply Hgone'].
    intros Hin. apply Hgone. now apply Hin'.
Qed.

(** X13 -- On an aligned collection, [delete] of one id that is stored
    removes the entry at the first position of that id from all four lists,
    and so the document, the metadata and the embedding stored with it;
    later entries with the same id stay. *)
Theorem delete_removes_entry (c : collection) (id : string) (idx : nat) :
  Coll.aligned c ->
  list_index id (Coll.ids c) = Some idx ->
  Coll.delete c (Some [id])
  = (Coll.mkCollection (without idx (Coll.documents c))
       (without idx (Coll.metadatas c)) (without idx (Coll.ids c))
       (without idx (Coll.embeddings c)) (Coll._id_counter c),
     Ok tt) /\
  nth_error (Coll.ids c) idx = Some id /\
  ~ In id (firstn idx (Coll.ids c)) /\
  Coll.count (fst (Coll.delete c (Some [id]))) = pred (Coll.count c).
Proof.
  intros Hal Hidx.
  assert (Hdel : Coll.delete c (Some [id])
                 = (Coll.mkCollection (without idx (Coll.documents c))
                      (without idx (Coll.metadatas c)) (without idx (Coll.ids c))
                      (without idx (Coll.embeddings c)) (Coll._id_counter c),
                    Ok tt)).
  { unfold Coll.delete. cbn [truthy_list Coll.delete_each].
    now rewrite (delete_one_aligned id Hal), Hidx. }
  split; [exact Hdel|]. split; [now apply list_index_nth|]. split.
  - clear Hdel Hal. revert idx Hidx.
    induction (Coll.ids c) as [|y l IH]; intros idx Hidx; cbn in Hidx;
      [discriminate|].
    destruct (String.eqb_spec y id) as [->|Hne].
    + injection Hidx as <-. intros [].
    + destruct (list_index id l) as [j|]; [|discriminate].
      injection Hidx as <-. cbn [firstn]. intros [H|H]; [congruence|].
      now apply (IH j eq_refl).
  - rewrite Hdel. unfold Coll.count. cbn [fst Coll.documents].
    destruct Hal as (_ & Hi & _). apply list_index_bound in Hidx.
    apply without_length. lia.
Qed.

(** X14 -- On an aligned collection [delete] never raises, keeps the four
    lists aligned and the id counter unchanged, removes entries only, and,
    when the stored ids are distinct, leaves none of the ids it was given. *)
Theorem delete_keeps_alignment (c : collection) (ids_arg : option (list string)) :
  Coll.aligned c ->
  exists c',
    Coll.delete c ids_arg = (c', Ok tt) /\
    Coll.aligned c' /\
    Coll._id_counter c' = Coll._id_counter c /\
    (Coll.count c' <= Coll.count c)%nat /\
    (forall x, In x (Coll.ids c') -> In x (Coll.ids c)) /\
    (NoDup (Coll.ids c) ->
     NoDup (Coll.ids c') /\
     forall l id, ids_arg = Some l -> In id l -> ~ In id (Coll.ids c')).
Proof.
  intros Hal. unfold Coll.delete.
  destruct ids_arg as [[|id l]|]; cbn [truthy_list].
  - exists c. split; [reflexivity|]. split; [assumption|]. split; [reflexivity|].
    split; [lia|]. split; [auto|]. intros Hnd. split; [assumption|].
    intros l id E. injection E as <-. intros [].
  - destruct (delete_each_aligned (id :: l) Hal)
      as (c' & Hdel & Hal' & Hc' & Hn' & Hin' & Hnd').
    exists c'. split; [exact Hdel|]. split; [assumption|]. split; [assumption|].
    split; [assumption|]. split; [assumption|]. intros Hnd.
    destruct (Hnd' Hnd) as [Hnd'' Hgone]. split; [assumption|].
    intros l0 x E. injection E as <-. now apply Hgone.
  - exists c. split; [reflexivity|]. split; [assumption|]. split; [reflexivity|].
    split; [lia|]. split; [auto|]. intros Hnd. split; [assumption|]. discriminate.
Qed.

(** X15 -- [delete] of ids that are not stored changes nothing and does
    not raise, on any collection; so does [delete] without ids or with an
    empty list. *)
Theorem delete_absent_is_noop (c : collection) (l : list string) :
  (forall id, In id l -> ~ In id (Coll.ids c)) ->
  Coll.delete c (Some l) = (c, Ok tt) /\
  Coll.delete c None = (c, Ok tt) /\
  Coll.delete c (Some []) = (c, Ok tt).
Proof.
  intros Habsent. split; [|split; reflexivity].
  unfold Coll.delete. destruct l as [|id0 l0]; [reflexivity|].
  cbn [truthy_list]. revert Habsent. generalize (id0 :: l0). clear id0 l0.
  intros l. induction l as [|id l IH]; intros Habsent; [reflexivity|].
  cbn [Coll.delete_each]. unfold Coll.delete_one.
  assert (Hnone : list_index id (Coll.ids c) = None)
    by (apply list_index_none; apply Habsent; now left).
  rewrite Hnone. apply IH. intros x Hx. apply Habsent. now right.
Qed.

End DeleteTheorems.

(** ** [MockChromaDBCollection.query] *)

Section QueryTheorems.

Variable Metadata : Type.
Variable Embedding : Type.
Variable Distance : Type.
Variable tenth_times : nat -> Distance.

Local Abbreviation collection := (Coll.Collection Metadata Embedding).
Local Abbreviation query := (Coll.query tenth_times).

(** X16 -- For [n_results >= 0], [query] returns the first
    [min(n_results, count)] documents, metadatas and ids, in stored order,
    and the distances [0.1 * i] for [i] below that number; on an aligned
    collection the four result lists have that length. *)
Theorem query_returns_first (c : collection) (n_results : Z) :
  0 <= n_results ->
  let k := Nat.min (Z.to_nat n_results) (Coll.count c) in
  query c n_results
  = Coll.mkQueryResult [firstn k (Coll.documents c)] [firstn k (Coll.metadatas c)]
      [firstn k (Coll.ids c)] [map tenth_times (seq 0 k)] /\
  List.length (firstn k (Coll.documents c)) = k /\
  List.length (map tenth_times (seq 0 k)) = k /\
  (Coll.aligned c ->
   List.length (firstn k (Coll.metadatas c)) = k /\
   List.length (firstn k (Coll.ids c)) = k).
Proof.
  intros Hn k. unfold Coll.query, slice_to, range.
  set (rc := Z.min n_results (Z.of_nat (List.length (Coll.documents c)))).
  assert (Hrc : Z.to_nat rc = k) by (unfold rc, k, Coll.count; lia).
  destruct (Z.ltb_spec rc 0) as [Hneg|_]; [unfold rc in Hneg; lia|].
  rewrite Hrc. split; [reflexivity|].
  assert (Hk : (k <= Coll.count c)%nat) by (unfold k; lia).
  unfold Coll.count in Hk.
  split; [rewrite length_firstn; lia|].
  split; [now rewrite length_map, length_seq|].
  intros (Hm & Hi & _). rewrite !length_firstn. lia.
Qed.

(** X17 -- For [n_results < 0] the slices count from the end: [query]
    returns all but the last [-n_results] documents, metadatas and ids, and
    no distance at all, so with more than [-n_results] documents stored the
    result holds documents without distances. *)
Theorem query_negative (c : collection) (n_results : Z) :
  n_results < 0 ->
  let drop := Z.to_nat (- n_results) in
  query c n_results
  = Coll.mkQueryResult
      [firstn (List.length (Coll.documents c) - drop) (Coll.documents c)]
      [firstn (List.length (Coll.metadatas c) - drop) (Coll.metadatas c)]
      [firstn (List.length (Coll.ids c) - drop) (Coll.ids c)]
      [[]] /\
  List.length (firstn (List.length (Coll.documents c) - drop) (Coll.documents c))
  = (Coll.count c - drop)%nat.
Proof.
  intros Hn drop. unfold Coll.query, slice_to, range.
  replace (Z.min n_results (Z.of_nat (List.length (Coll.documents c))))
    with n_results by lia.
  destruct (Z.ltb_spec n_results 0) as [_|Hge]; [|lia].
  replace (Z.to_nat n_results) with 0%nat by lia. cbn [seq map].
  replace (Z.to_nat (Z.of_nat (List.length (Coll.documents c)) + n_results))
    with (List.length (Coll.documents c) - drop)%nat by (unfold drop; lia).
  replace (Z.to_nat (Z.of_nat (List.length (Coll.metadatas c)) + n_results))
    with (List.length (Coll.metadatas c) - drop)%nat by (unfold drop; lia).
  replace (Z.to_nat (Z.of_nat (List.length (Coll.ids c)) + n_results))
    with (List.length (Coll.ids c) - drop)%nat by (unfold drop; lia).
  split; [reflexivity|]. rewrite length_firstn. unfold Coll.count. lia.
Qed.

End QueryTheorems.

(** ** Sequences of calls *)

Lemma NoDup_snoc (l : list string) (x : string) :
  NoDup l -> ~ In x l -> NoDup (l ++ [x]).
Proof.
  induction l as [|y l IH]; intros Hnd Hx; cbn.
  - constructor; [intros []|constructor].
  - inversion Hnd as [|y' l' Hy Hnd']; subst. constructor.
    + intros Hin. apply in_app_or in Hin as [Hin|[<-|[]]]; [contradiction|].
      apply Hx. now left.
    + apply IH; [assumption|]. intros Hin. apply Hx. now right.
Qed.

Section CallSequences.

Variable Metadata : Type.
Variable empty_metadata : Metadata.
Variable Embedding : Type.
Variable default_embedding : Embedding.

Local Abbreviation collection := (Coll.Collection Metadata Embedding).
Local Abbreviation add_from := (Coll.add_from empty_metadata default_embedding).
Local Abbreviation add_one := (Coll.add_one empty_metadata default_embedding).

Lemma add_from_generated docs :
  forall (c c' : collection) i m e,
    Coll.generated c ->
    add_from c i docs m None e = (c', Ok tt) ->
    Coll.generated c'.
Proof.
  induction docs as [|doc rest IH]; intros c c' i m e Hgen H.
  - cbn in H. now injection H as <-.
  - cbn [Coll.add_from] in H.
    destruct (add_one c i doc m None e) as [c1 [[]|err]] eqn:H1; [|discriminate].
    apply add_one_ok in H1 as (meta & id & emb & _ & Hid & _ & ->).
    cbn in Hid. injection Hid as <-.
    eapply IH; [|exact H]. clear IH H.
    destruct Hgen as ((Hm & Hi & He) & Hnd & Hold).
    split; [|split].
    + unfold Coll.aligned.
      cbn [Coll.documents Coll.metadatas Coll.ids Coll.embeddings].
      rewrite !length_app. cbn. repeat split; lia.
    + cbn [Coll.ids]. apply NoDup_snoc; [assumption|].
      intros Hin. destruct (Hold _ Hin) as (n & Hn & E).
      apply generated_id_inj in E. lia.
    + cbn [Coll.ids Coll._id_counter]. intros x Hin.
      apply in_app_or in Hin as [Hin|[<-|[]]].
      * destruct (Hold _ Hin) as (n & Hn & ->). exists n. split; [lia|reflexivity].
      * exists (Coll._id_counter c). split; [lia|reflexivity].
Qed.

(** X18 -- From the empty collection, any sequence of calls of [add]
    without ids and of [delete] that all end normally leaves the four lists
    aligned and the stored ids pairwise distinct, each of them ["id_"]
    followed by a value the counter has passed. *)
Theorem generated_ids_distinct (ops : list (Coll.Operation Metadata Embedding))
  (c : collection) :
  Coll.apply_operations empty_metadata default_embedding
    (Coll.__init__ Metadata Embedding) ops = (c, Ok tt) ->
  Coll.aligned c /\
  NoDup (Coll.ids c) /\
  forall id, In id (Coll.ids c) ->
    exists n, (n < Coll._id_counter c)%nat /\ id = ("id_" ++ str_of_nat n)%string.
Proof.
  assert (Hinit : Coll.generated (Coll.__init__ Metadata Embedding)).
  { split; [now repeat split|]. split; [constructor|]. intros id []. }
  revert Hinit. generalize (Coll.__init__ Metadata Embedding).
  induction ops as [|op ops IH]; intros c0 Hgen H.
  - cbn in H. now injection H as <-.
  - cbn [Coll.apply_operations] in H. destruct op as [d m e|ids_arg].
    + destruct (Coll.add empty_metadata default_embedding c0 d m None e)
        as [c1 [[]|err]] eqn:Hadd; [|discriminate].
      eapply IH; [|exact H]. eapply add_from_generated; eassumption.
    + destruct (Coll.delete c0 ids_arg) as [c1 [[]|err]] eqn:Hdel; [|discriminate].
      eapply IH; [|exact H]. clear IH H.
      destruct Hgen as (Hal & Hnd & Hold).
      assert (Hkeep : Coll.aligned c1 /\
                      Coll._id_counter c1 = Coll._id_counter c0 /\
                      (forall x, In x (Coll.ids c1) -> In x (Coll.ids c0)) /\
                      NoDup (Coll.ids c1)).
      { unfold Coll.delete in Hdel.
        destruct (truthy_list ids_arg);
          [destruct ids_arg as [l|]|]; try (injection Hdel as <-; now auto).
        destruct (delete_each_aligned l Hal)
          as (c' & Hdel' & Hal' & Hc' & _ & Hin' & Hnd').
        rewrite Hdel' in Hdel. injection Hdel as <-.
        destruct (Hnd' Hnd) as [Hnd'' _]. now auto. }
      destruct Hkeep as (Hal1 & Hc1 & Hin1 & Hnd1).
      split; [assumption|]. split; [assumption|].
      intros id Hin. rewrite Hc1. apply Hold. now apply Hin1.
Qed.

End CallSequences.

(** ** Round trips *)

Lemma list_index_app_found (x : string) (l l' : list string) (i : nat) :
  list_index x l = Some i -> list_index x (l ++ l') = Some i.
Proof.
  revert i. induction l as [|y l IH]; intros i H; cbn in H |- *; [discriminate|].
  destruct (y =? x)%string; [assumption|].
  destruct (list_index x l) as [j|]; [|discriminate].
  now rewrite (IH j eq_refl).
Qed.

Lemma without_app {A : Type} (i : nat) (l l' : list A) :
  (i < List.length l)%nat -> without i (l ++ l') = without i l ++ l'.
Proof.
  intros H. unfold without.
  rewrite firstn_app, skipn_app.
  replace (i - List.length l)%nat with 0%nat by lia.
  replace (S i - List.length l)%nat with 0%nat by lia.
  cbn [firstn skipn]. now rewrite app_nil_r, app_assoc.
Qed.

Section RoundTrips.

Variable Metadata : Type.
Variable empty_metadata : Metadata.
Variable Embedding : Type.
Variable default_embedding : Embedding.
Variable Distance : Type.
Variable tenth_times : nat -> Distance.

Local Abbreviation collection := (Coll.Collection Metadata Embedding).
Local Abbreviation add := (Coll.add empty_metadata default_embedding).

(** X19 -- Adding one document under an id and deleting that id: when the
    id was not stored, the collection is back as it was, but for the
    counter; when the id was stored already, it is the older entry that is
    removed, and the document just added stays. *)
Theorem add_then_delete (c : collection) (doc id : string)
  (m : option (list Metadata)) (e : option (list Embedding)) :
  Coll.aligned c ->
  Coll.covers m 1 = true ->
  Coll.covers e 1 = true ->
  exists c1,
    add c (Coll.one_document doc) m (Some [id]) e = (c1, Ok tt) /\
    (~ In id (Coll.ids c) ->
     Coll.delete c1 (Some [id])
     = (Coll.mkCollection (Coll.documents c) (Coll.metadatas c) (Coll.ids c)
          (Coll.embeddings c) (S (Coll._id_counter c)),
        Ok tt)) /\
    (forall idx, list_index id (Coll.ids c) = Some idx ->
       Coll.documents (fst (Coll.delete c1 (Some [id])))
       = without idx (Coll.documents c) ++ [doc] /\
       Coll.ids (fst (Coll.delete c1 (Some [id])))
       = without idx (Coll.ids c) ++ [id]).
Proof.
  intros Hal Hm He.
  assert (Hcov : Coll.covers m 1 && Coll.covers (Some [id]) 1 && Coll.covers e 1 = true)
    by (rewrite Hm, He; reflexivity).
  destruct (add_one_covers empty_metadata default_embedding c 0 doc m (Some [id]) e Hcov)
    as [c1 Hadd].
  exists c1. unfold Coll.add. cbn [Coll.documents_of Coll.add_from]. rewrite Hadd.
  split; [reflexivity|].
  apply add_one_ok in Hadd as (meta & id' & emb & _ & Hid & _ & ->).
  cbn in Hid. injection Hid as <-.
  destruct Hal as (Hlm & Hli & Hle).
  assert (Hal1 : Coll.aligned
                   (Coll.mkCollection (Coll.documents c ++ [doc])
                      (Coll.metadatas c ++ [meta]) (Coll.ids c ++ [id])
                      (Coll.embeddings c ++ [emb]) (S (Coll._id_counter c)))).
  { unfold Coll.aligned.
    cbn [Coll.documents Coll.metadatas Coll.ids Coll.embeddings].
    rewrite !length_app. cbn. repeat split; lia. }
  unfold Coll.delete. cbn [truthy_list Coll.delete_each].
  rewrite (delete_one_aligned id Hal1).
  cbn [Coll.documents Coll.metadatas Coll.ids Coll.embeddings Coll._id_counter].
  split.
  - intros Hfresh. rewrite list_index_snoc_fresh by assumption.
    assert (E1 : without (List.length (Coll.ids c)) (Coll.documents c ++ [doc])
                 = Coll.documents c) by (rewrite Hli; apply without_snoc).
    assert (E2 : without (List.length (Coll.ids c)) (Coll.metadatas c ++ [meta])
                 = Coll.metadatas c)
      by (replace (List.length (Coll.ids c)) with (List.length (Coll.metadatas c))
            by lia; apply without_snoc).
    assert (E3 : without (List.length (Coll.ids c)) (Coll.embeddings c ++ [emb])
                 = Coll.embeddings c)
      by (replace (List.length (Coll.ids c)) with (List.length (Coll.embeddings c))
            by lia; apply without_snoc).
    now rewrite E1, E2, E3, without_snoc.
  - intros idx Hidx. rewrite list_index_app_found with (1 := Hidx).
    pose proof (list_index_bound _ _ Hidx) as Hb.
    cbn [fst Coll.documents Coll.ids].
    split; apply without_app; lia.
Qed.


End RoundTrips.

(** ** [TestDataGenerator.large_text_content] *)

Lemma string_length_append (s1 s2 : string) :
  String.length (s1 ++ s2) = (String.length s1 + String.length s2)%nat.
Proof. induction s1 as [|a s1 IH]; cbn; [reflexivity|now rewrite IH]. Qed.

Lemma string_length_substring (n : nat) (s : string) :
  (n <= String.length s)%nat -> String.length (substring 0 n s) = n.
Proof.
  revert s. induction n as [|n IH]; intros s H.
  - now destruct s.
  - destruct s as [|a s]; cbn in H; [lia|]. cbn. rewrite IH; [reflexivity|lia].
Qed.

Lemma substring_empty (n m : nat) : substring n m EmptyString = EmptyString.
Proof. destruct n, m; reflexivity. Qed.

(** The loop ends when the fuel covers the characters that are missing,
    with a content at least as long as the target. *)
Lemma fill_terminates (fuel : nat) :
  forall (target_chars : Z) (content : string),
    (Z.to_nat (target_chars - Z.of_nat (String.length content)) <= fuel)%nat ->
    exists filled,
      TestDataGenerator.fill fuel target_chars content = Some filled /\
      target_chars <= Z.of_nat (String.length filled) /\
      (String.length content <= String.length filled)%nat.
Proof.
  induction fuel as [|fuel IH]; intros target_chars content Hfuel;
    cbn [TestDataGenerator.fill];
    destruct (Z.ltb_spec (Z.of_nat (String.length content)) target_chars)
      as [Hlt|Hge]; try lia;
    try (exists content; split; [reflexivity|split; lia]).
  destruct (IH target_chars
              (content ++ (String.concat " " TestDataGenerator.words ++ " "))%string)
    as (filled & Hfill & Hlen & Hgrow).
  - rewrite string_length_append. cbn. lia.
  - exists filled. split; [exact Hfill|]. split; [exact Hlen|].
    rewrite string_length_append in Hgrow. lia.
Qed.

(** X21 -- [large_text_content] always returns (its loop ends), and the
    text it returns has exactly [size_kb * 1024] characters, none when
    [size_kb] is zero or negative. *)
Theorem large_text_content_length (size_kb : Z) :
  exists text,
    TestDataGenerator.large_text_content size_kb = Some text /\
    Z.of_nat (String.length text) = Z.max 0 (size_kb * 1024) /\
    (size_kb <= 0 -> text = EmptyString).
Proof.
  unfold TestDataGenerator.large_text_content, TestDataGenerator.large_text_content_fuel.
  destruct (@fill_terminates (Z.to_nat (size_kb * 1024)) (size_kb * 1024) "")
    as (filled & Hfill & Hlen & _); [cbn; lia|].
  rewrite Hfill. eexists. split; [reflexivity|].
  unfold TestDataGenerator.str_slice_to.
  destruct (Z.ltb_spec (size_kb * 1024) 0) as [Hneg|Hpos].
  - assert (Hempty : filled = EmptyString).
    { destruct (Z.to_nat (size_kb * 1024)) eqn:Hf; cbn in Hfill;
        (destruct (Z.ltb_spec 0 (size_kb * 1024)); [lia|]);
        now injection Hfill as <-. }
    subst filled. rewrite substring_empty. cbn. split; [lia|reflexivity].
  - rewrite string_length_substring by lia. split; [lia|].
    intros Hle. replace (size_kb * 1024) with 0 by lia. cbn.
    now destruct filled.
Qed.

(* ================================================================== *)
(** * The properties of the test utilities at work *)

(** A fourth document on a shelf of three. *)
Lemma add_appends_entries_witness :
  Coll.aligned Shelf.three /\
  Coll.add 0%nat 0%nat Shelf.three (Coll.one_document "d") None None None
  = (Shelf.four, Ok tt) /\
  Coll.documents Shelf.four
  = Coll.documents Shelf.three ++ Coll.documents_of (Coll.one_document "d") /\
  Coll.aligned Shelf.four.
Proof.
  assert (H1 : Coll.aligned Shelf.three) by (repeat split; reflexivity).
  assert (H2 : Coll.add 0%nat 0%nat Shelf.three (Coll.one_document "d") None None None
               = (Shelf.four, Ok tt)) by reflexivity.
  split; [exact H1|]. split; [exact H2|].
  destruct (@add_appends_entries nat 0%nat nat 0%nat Shelf.three Shelf.four
              (Coll.one_document "d") None None None H1 H2) as (Hd & Hal & _).
  split; assumption.
Defined.

(** Two documents and one embedding. *)
Lemma add_ok_iff_witness :
  Coll.covers (@None (list nat)) 2 && Coll.covers (@None (list string)) 2
  && Coll.covers (Some [7%nat]) 2 = false /\
  snd (Coll.add 0%nat 0%nat Shelf.three (Coll.document_list ["d"; "e"]) None None
         (Some [7%nat]))
  = Raise "list index out of range" /\
  snd (Coll.add 0%nat 0%nat Shelf.three (Coll.document_list ["d"; "e"]) None None
         (Some [7%nat]))
  <> Ok tt.
Proof.
  assert (H1 : Coll.covers (@None (list nat)) 2 && Coll.covers (@None (list string)) 2
               && Coll.covers (Some [7%nat]) 2 = false) by reflexivity.
  assert (H2 : snd (Coll.add 0%nat 0%nat Shelf.three (Coll.document_list ["d"; "e"])
                      None None (Some [7%nat]))
               = Raise "list index out of range") by reflexivity.
  split; [exact H1|]. split; [exact H2|].
  intros Hok.
  destruct (@add_ok_iff nat 0%nat nat 0%nat Shelf.three
              (Coll.document_list ["d"; "e"]) None None (Some [7%nat])) as [Hiff _].
  apply Hiff in Hok. cbn [Coll.documents_of List.length] in Hok.
  rewrite H1 in Hok. discriminate Hok.
Defined.

(** The second of two documents has no embedding. *)
Lemma failed_add_misaligns_witness :
  Coll.aligned Shelf.three /\
  Coll.add 0%nat 0%nat Shelf.three (Coll.document_list ["d"; "e"]) None None
    (Some [7%nat])
  = (Shelf.broken, Raise "list index out of range") /\
  Coll.count Shelf.broken = S (List.length (Coll.embeddings Shelf.broken)) /\
  ~ Coll.aligned Shelf.broken.
Proof.
  assert (H1 : Coll.aligned Shelf.three) by (repeat split; reflexivity).
  assert (H2 : Coll.add 0%nat 0%nat Shelf.three (Coll.document_list ["d"; "e"]) None
                 None (Some [7%nat])
               = (Shelf.broken, Raise "list index out of range")) by reflexivity.
  split; [exact H1|]. split; [exact H2|].
  destruct (@failed_add_misaligns nat 0%nat nat 0%nat Shelf.three Shelf.broken
              (Coll.document_list ["d"; "e"]) None None (Some [7%nat])
              "list index out of range" H1 H2) as (Hc & Hn & _).
  split; assumption.
Defined.

(** The older of two entries with the same id goes. *)
Lemma delete_removes_entry_witness :
  Coll.aligned Shelf.twice /\
  list_index "x" (Coll.ids Shelf.twice) = Some 0%nat /\
  Coll.delete Shelf.twice (Some ["x"])
  = (Coll.mkCollection ["other"; "new"] [2; 3]%nat ["y"; "x"] [5; 6]%nat 0, Ok tt).
Proof.
  assert (H1 : Coll.aligned Shelf.twice) by (repeat split; reflexivity).
  assert (H2 : list_index "x" (Coll.ids Shelf.twice) = Some 0%nat) by reflexivity.
  split; [exact H1|]. split; [exact H2|].
  exact (proj1 (@delete_removes_entry nat nat Shelf.twice "x" 0%nat H1 H2)).
Defined.

(** Two of three ids are deleted. *)
Lemma delete_keeps_alignment_witness :
  Coll.aligned Shelf.three /\
  exists c',
    Coll.delete Shelf.three (Some ["id_2"; "id_0"; "id_9"]) = (c', Ok tt) /\
    Coll.aligned c' /\
    Coll._id_counter c' = Coll._id_counter Shelf.three.
Proof.
  assert (H1 : Coll.aligned Shelf.three) by (repeat split; reflexivity).
  split; [exact H1|].
  destruct (@delete_keeps_alignment nat nat Shelf.three
              (Some ["id_2"; "id_0"; "id_9"]) H1)
    as (c' & Hd & Hal & Hc & _).
  exists c'. split; [exact Hd|]. split; [exact Hal|exact Hc].
Defined.

(** An id that is not stored, on a collection that is not aligned. *)
Lemma delete_absent_is_noop_witness :
  (forall id, In id ["id_9"] -> ~ In id (Coll.ids Shelf.broken)) /\
  Coll.delete Shelf.broken (Some ["id_9"]) = (Shelf.broken, Ok tt).
Proof.
  assert (H1 : forall id, In id ["id_9"] -> ~ In id (Coll.ids Shelf.broken)).
  { intros id [<-|[]] Hin. cbn in Hin.
    repeat (destruct Hin as [Hin|Hin]; [discriminate Hin|]). exact Hin. }
  split; [exact H1|].
  exact (proj1 (@delete_absent_is_noop nat nat Shelf.broken ["id_9"] H1)).
Defined.

(** Two results out of three documents. *)
Lemma query_returns_first_witness :
  0 <= 2 /\
  Coll.query (fun i : nat => i) Shelf.three 2
  = Coll.mkQueryResult [["a"; "b"]] [[0; 0]%nat] [["id_0"; "id_1"]] [[0; 1]%nat].
Proof.
  assert (H1 : 0 <= 2) by lia.
  split; [exact H1|].
  exact (proj1 (@query_returns_first nat nat nat (fun i : nat => i) Shelf.three 2 H1)).
Defined.

(** A negative number of results. *)
Lemma query_negative_witness :
  -1 < 0 /\
  Coll.query (fun i : nat => i) Shelf.three (-1)
  = Coll.mkQueryResult [["a"; "b"]] [[0; 0]%nat] [["id_0"; "id_1"]] [[]].
Proof.
  assert (H1 : -1 < 0) by lia.
  split; [exact H1|].
  exact (proj1 (@query_negative nat nat nat (fun i : nat => i) Shelf.three (-1) H1)).
Defined.

(** Three documents, one deleted, one more added. *)
Lemma generated_ids_distinct_witness :
  Coll.apply_operations 0%nat 0%nat Shelf.empty
    [ @Coll.op_add nat nat (Coll.document_list ["a"; "b"; "c"]) None None;
      @Coll.op_delete nat nat (Some ["id_1"]);
      @Coll.op_add nat nat (Coll.one_document "d") None None ]
  = (Coll.mkCollection ["a"; "c"; "d"] [0; 0; 0]%nat ["id_0"; "id_2"; "id_3"]
       [0; 0; 0]%nat 4, Ok tt) /\
  NoDup ["id_0"; "id_2"; "id_3"].
Proof.
  assert (H1 : Coll.apply_operations 0%nat 0%nat Shelf.empty
                 [ @Coll.op_add nat nat (Coll.document_list ["a"; "b"; "c"]) None None;
                   @Coll.op_delete nat nat (Some ["id_1"]);
                   @Coll.op_add nat nat (Coll.one_document "d") None None ]
               = (Coll.mkCollection ["a"; "c"; "d"] [0; 0; 0]%nat
                    ["id_0"; "id_2"; "id_3"] [0; 0; 0]%nat 4, Ok tt))
    by reflexivity.
  split; [exact H1|].
  exact (proj1 (proj2 (@generated_ids_distinct nat 0%nat nat 0%nat _ _ H1))).
Defined.

(** A new document under a fresh id, and under an id that is stored. *)
Lemma add_then_delete_witness :
  Coll.aligned Shelf.twice /\
  Coll.covers (@None (list nat)) 1 = true /\
  ~ In "z" (Coll.ids Shelf.twice) /\
  list_index "x" (Coll.ids Shelf.twice) = Some 0%nat /\
  exists c1 c2,
    Coll.add 0%nat 0%nat Shelf.twice (Coll.one_document "doc") None (Some ["z"]) None
    = (c1, Ok tt) /\
    Coll.delete c1 (Some ["z"])
    = (Coll.mkCollection (Coll.documents Shelf.twice) (Coll.metadatas Shelf.twice)
         (Coll.ids Shelf.twice) (Coll.embeddings Shelf.twice)
         (S (Coll._id_counter Shelf.twice)), Ok tt) /\
    Coll.add 0%nat 0%nat Shelf.twice (Coll.one_document "doc") None (Some ["x"]) None
    = (c2, Ok tt) /\
    Coll.documents (fst (Coll.delete c2 (Some ["x"])))
    = without 0 (Coll.documents Shelf.twice) ++ ["doc"].
Proof.
  assert (H1 : Coll.aligned Shelf.twice) by (repeat split; reflexivity).
  assert (H2 : Coll.covers (@None (list nat)) 1 = true) by reflexivity.
  assert (H3 : ~ In "z" (Coll.ids Shelf.twice)).
  { cbn. intros Hin.
    repeat (destruct Hin as [Hin|Hin]; [discriminate Hin|]). exact Hin. }
  assert (H4 : list_index "x" (Coll.ids Shelf.twice) = Some 0%nat) by reflexivity.
  split; [exact H1|]. split; [exact H2|]. split; [exact H3|]. split; [exact H4|].
  destruct (@add_then_delete nat 0%nat nat 0%nat Shelf.twice "doc" "z" None None
              H1 H2 H2) as (c1 & Ha1 & Hfresh & _).
  destruct (@add_then_delete nat 0%nat nat 0%nat Shelf.twice "doc" "x" None None
              H1 H2 H2) as (c2 & Ha2 & _ & Hstored).
  exists c1, c2. split; [exact Ha1|]. split; [exact (Hfresh H3)|].
  split; [exact Ha2|]. exact (proj1 (Hstored 0%nat H4)).
Defined.


(** No kilobyte at all. *)
Lemma large_text_content_length_witness :
  -2 <= 0 /\
  exists text,
    TestDataGenerator.large_text_content (-2) = Some text /\ text = EmptyString.
Proof.
  assert (H1 : -2 <= 0) by lia.
  split; [exact H1|].
  destruct (large_text_content_length (-2)) as (text & Ht & _ & He).
  exists text. split; [exact Ht|exact (He H1)].
Defined.
